(** * Verification of the GPIO pin facade (gpio.c)

    A shallow embedding of [src/gpio.c] and of the HAL interface it calls
    ([inc/hal.h]), followed by the properties of the allocator and of the
    direction-gated accessors.

    Memory is a list of [struct gpio_s] objects addressed by position, a
    pointer [gpio_t] is [NULL] or the position of an object, and every
    function of the C file is a computation in a state-and-fault monad
    over the object memory and the HAL. *)

From Stdlib Require Import ZArith Lia Sorted.
From stdpp Require Import base list.


(* ===================================================================== *)
(** ** Data model *)
(* ===================================================================== *)

(** [uint8_t]: an integer kept in the range 0..255.  A value passed for a
    [uint8_t] parameter is converted on the call, which is reduction
    modulo 256. *)
Definition uint8_t := Z.
Bind Scope Z_scope with uint8_t.
Definition to_uint8 (z : Z) : uint8_t := (z mod 256)%Z.

(** [struct gpio_s].  The member [used] exists only when [USE_DYNAMIC_MEM]
    is not defined: its type [U] is [bool] in the static build and [unit]
    (no information) in the dynamic build. *)
Record gpio_s (U : Type) := mk_gpio {
  port : uint8_t;
  bit : uint8_t;
  output : bool;
  used : U
}.
Arguments mk_gpio {U} _ _ _ _.
Arguments port {U} _.
Arguments bit {U} _.
Arguments output {U} _.
Arguments used {U} _.

Definition with_port {U} (s : gpio_s U) (p : uint8_t) : gpio_s U :=
  mk_gpio p (bit s) (output s) (used s).
Definition with_bit {U} (s : gpio_s U) (b : uint8_t) : gpio_s U :=
  mk_gpio (port s) b (output s) (used s).
Definition with_output {U} (s : gpio_s U) (o : bool) : gpio_s U :=
  mk_gpio (port s) (bit s) o (used s).
Definition with_used {U} (s : gpio_s U) (u : U) : gpio_s U :=
  mk_gpio (port s) (bit s) (output s) u.

(** [gpio_t] is [struct gpio_s *]: [NULL], or the address of an object. *)
Definition gpio_t := option nat.
Definition NULL : gpio_t := None.

(** The three primitives of [hal.h], as the calls the HAL receives. *)
Inductive hal_call :=
| set_direction (port bit : uint8_t) (output : bool)
| set_output (port bit : uint8_t) (active : bool)
| get_input (port bit : uint8_t).

(** The HAL is board specific ([hal.c] leaves the three bodies to be
    filled in).  It is modelled by the calls it has received, oldest
    first, and by the level [hal_gpio_get_input] reports, which may depend
    on everything the HAL was asked to do before. *)
Record hal_t := mk_hal {
  hal_calls : list hal_call;
  hal_level : list hal_call -> uint8_t -> uint8_t -> bool
}.

(** Program state: the [struct gpio_s] objects that exist (the static
    array [instances], or the blocks obtained from [malloc]) and the
    HAL. *)
Record state (U : Type) := mk_state {
  mem : list (gpio_s U);
  hal : hal_t
}.
Arguments mk_state {U} _ _.
Arguments mem {U} _.
Arguments hal {U} _.

(* ===================================================================== *)
(** ** The monad of C computations *)
(* ===================================================================== *)

(** A computation reads and writes the state and returns a value, or
    faults ([None]) when it dereferences a pointer that designates no
    object. *)
Definition M (U A : Type) : Type := state U -> option (A * state U).

Definition ret {U A} (a : A) : M U A := fun st => Some (a, st).

Definition bind {U A B} (m : M U A) (k : A -> M U B) : M U B :=
  fun st => match m st with
            | Some (a, st') => k a st'
            | None => None
            end.

Declare Scope c_scope.
Delimit Scope c_scope with C.
Notation "'let*' x ':=' m 'in' k" := (bind m (fun x => k))
  (at level 10, x name, m at level 100, k at level 200) : c_scope.
Notation "m ';;' k" := (bind m (fun _ => k))
  (at level 100, k at level 200, right associativity) : c_scope.

Section Memory.
Context {U : Type}.

(** [self->f] as an rvalue. *)
Definition load {A} (f : gpio_s U -> A) (self : gpio_t) : M U A :=
  fun st => match self with
            | Some a => match mem st !! a with
                        | Some s => Some (f s, st)
                        | None => None
                        end
            | None => None
            end.

(** [self->f = v], where [upd] replaces member [f]. *)
Definition store {A} (upd : gpio_s U -> A -> gpio_s U) (self : gpio_t)
    (v : A) : M U unit :=
  fun st => match self with
            | Some a => match mem st !! a with
                        | Some s =>
                            Some (tt, mk_state (<[a := upd s v]> (mem st)) (hal st))
                        | None => None
                        end
            | None => None
            end.
End Memory.

(* ===================================================================== *)
(** ** hal.h *)
(* ===================================================================== *)

Section Hal.
Context {U : Type}.

Definition record_call (c : hal_call) (h : hal_t) : hal_t :=
  mk_hal (hal_calls h ++ [c]) (hal_level h).

Definition hal_gpio_set_direction (port bit : uint8_t) (output : bool) : M U unit :=
  fun st => Some (tt, mk_state (mem st) (record_call (set_direction port bit output) (hal st))).

Definition hal_gpio_set_output (port bit : uint8_t) (active : bool) : M U unit :=
  fun st => Some (tt, mk_state (mem st) (record_call (set_output port bit active) (hal st))).

Definition hal_gpio_get_input (port bit : uint8_t) : M U bool :=
  fun st => Some (hal_level (hal st) (hal_calls (hal st)) port bit,
                  mk_state (mem st) (record_call (get_input port bit) (hal st))).
End Hal.

(* ===================================================================== *)
(** ** gpio.c *)
(* ===================================================================== *)

Local Open Scope c_scope.

Section Facade.
Context {U : Type}.

(** [gpioCreate], with the allocation of its first statement as a
    parameter: [allocateInstance ()] in the static build,
    [malloc (sizeof (struct gpio_s))] in the dynamic build. *)
Definition gpioCreate (allocate : M U gpio_t) (port bit : Z) : M U gpio_t :=
  let* self := allocate in
  match self with
  | Some _ =>
      store with_port self (to_uint8 port) ;;
      store with_bit self (to_uint8 bit) ;;
      store with_output self false ;;
      ret self
  | None => ret self
  end.

Definition gpioSetOutput (self : gpio_t) (output : bool) : M U unit :=
  store with_output self output ;;
  let* p := load port self in
  let* b := load bit self in
  hal_gpio_set_direction p b output.

Definition gpioSetState (self : gpio_t) (state : bool) : M U unit :=
  let* o := load output self in
  if o then
    let* p := load port self in
    let* b := load bit self in
    hal_gpio_set_output p b state
  else ret tt.

Definition gpioGetState (self : gpio_t) : M U bool :=
  let* p := load port self in
  let* b := load bit self in
  hal_gpio_get_input p b.
End Facade.

(** *** Static build ([USE_DYNAMIC_MEM] not defined) *)

Section StaticBuild.
(** The macro [GPIO_MAX_INSTANCES], 10 unless the build defines it. *)
Variable GPIO_MAX_INSTANCES : nat.

(** The [for] loop of [allocateInstance]: [index] is the loop counter
    and [remaining] the number of iterations left before
    [index < GPIO_MAX_INSTANCES] fails. *)
Fixpoint allocate_loop (index remaining : nat) : M bool gpio_t :=
  match remaining with
  | O => ret NULL
  | S remaining' =>
      let* u := load used (Some index) in
      if negb u then
        store with_used (Some index) true ;;
        ret (Some index)
      else allocate_loop (S index) remaining'
  end.

Definition allocateInstance : M bool gpio_t :=
  allocate_loop 0 GPIO_MAX_INSTANCES.

Definition gpioCreate_static (port bit : Z) : M bool gpio_t :=
  gpioCreate allocateInstance port bit.

(** [static struct gpio_s instances[GPIO_MAX_INSTANCES] = {0}]. *)
Definition instances_init : list (gpio_s bool) :=
  replicate GPIO_MAX_INSTANCES (mk_gpio 0%Z 0%Z false false).

Definition static_init (h : hal_t) : state bool :=
  mk_state instances_init h.
End StaticBuild.

Definition GPIO_MAX_INSTANCES_default : nat := 10.

(** *** Dynamic build ([USE_DYNAMIC_MEM] defined) *)

(** [malloc (sizeof (struct gpio_s))].  The C library decides the answer:
    [None] when it refuses, otherwise a new object whose members hold
    whatever [junk] the block contained (malloc does not clear it).  The
    new object is placed after the existing ones. *)
Definition malloc (answer : option (gpio_s unit)) : M unit gpio_t :=
  fun st => match answer with
            | Some junk => Some (Some (length (mem st)), mk_state (mem st ++ [junk]) (hal st))
            | None => Some (NULL, st)
            end.

Definition gpioCreate_dynamic (answer : option (gpio_s unit)) (port bit : Z)
    : M unit gpio_t :=
  gpioCreate (malloc answer) port bit.

Definition dynamic_init (h : hal_t) : state unit := mk_state [] h.

(* ===================================================================== *)
(** ** Client programs *)
(* ===================================================================== *)

(** A client is a sequence of calls to the four public functions.  [E] is
    what the environment contributes to one allocation: nothing in the
    static build, the answer of [malloc] in the dynamic build. *)
Inductive call (E : Type) :=
| Create (e : E) (port bit : Z)
| SetOutput (self : gpio_t) (output : bool)
| SetState (self : gpio_t) (state : bool)
| GetState (self : gpio_t).
Arguments Create {E} _ _ _.
Arguments SetOutput {E} _ _.
Arguments SetState {E} _ _.
Arguments GetState {E} _.

(** What a call returns. *)
Inductive value :=
| Handle (h : gpio_t)
| Void
| Level (b : bool).

Section Client.
Context {U E : Type}.
Variable allocate : E -> M U gpio_t.

Definition exec (c : call E) : M U value :=
  match c with
  | Create e port bit =>
      let* h := gpioCreate (allocate e) port bit in ret (Handle h)
  | SetOutput self output => gpioSetOutput self output ;; ret Void
  | SetState self state => gpioSetState self state ;; ret Void
  | GetState self => let* b := gpioGetState self in ret (Level b)
  end.

Fixpoint run (prog : list (call E)) : M U (list value) :=
  match prog with
  | [] => ret []
  | c :: prog' =>
      let* v := exec c in
      let* vs := run prog' in
      ret (v :: vs)
  end.
End Client.

Definition run_static (N : nat) : list (call unit) -> M bool (list value) :=
  run (fun _ => allocateInstance N).
Definition run_dynamic : list (call (option (gpio_s unit))) -> M unit (list value) :=
  run malloc.

(** The handles returned by the [gpioCreate] calls of a run, in order. *)
Fixpoint handles (vs : list value) : list gpio_t :=
  match vs with
  | [] => []
  | Handle h :: vs' => h :: handles vs'
  | _ :: vs' => handles vs'
  end.

(** The addresses of the non-NULL handles among them. *)
Fixpoint addresses (hs : list gpio_t) : list nat :=
  match hs with
  | [] => []
  | Some a :: hs' => a :: addresses hs'
  | None :: hs' => addresses hs'
  end.

Fixpoint count_creates {E} (prog : list (call E)) : nat :=
  match prog with
  | [] => O
  | Create _ _ _ :: prog' => S (count_creates prog')
  | _ :: prog' => count_creates prog'
  end.

(** The value given by the most recent [gpioSetOutput] on [self] in
    [prog], if there is one. *)
Fixpoint last_set_output {E} (self : gpio_t) (prog : list (call E)) : option bool :=
  match prog with
  | [] => None
  | c :: prog' =>
      match last_set_output self prog' with
      | Some v => Some v
      | None =>
          match c with
          | SetOutput h v => if decide (h = self) then Some v else None
          | _ => None
          end
      end
  end.

(** The states a well-behaved client of the static build can reach: it
    starts from the zero-initialised array and passes to the accessors
    only handles that [gpioCreate] has returned, that is, addresses of
    slots marked used. *)
Inductive reachable (N : nat) (h0 : hal_t) : state bool -> Prop :=
| reach_init : reachable N h0 (static_init N h0)
| reach_call st c v st' :
    reachable N h0 st ->
    match c with
    | Create _ _ _ => True
    | SetOutput self _ | SetState self _ | GetState self =>
        exists a s, self = Some a /\ mem st !! a = Some s /\ used s = true
    end ->
    exec (fun _ : unit => allocateInstance N) c st = Some (v, st') ->
    reachable N h0 st'.

(** Invariants of the static array. *)

(** The [used] members of the objects, in address order. *)
Definition flags (st : state bool) : list bool := used <$> mem st.

(** Exactly the first [k] slots are in use. *)
Definition first_used (N k : nat) (st : state bool) : Prop :=
  length (flags st) = N /\
  forall j u, flags st !! j = Some u -> u = bool_decide (j < k)%nat.

(** Every slot below [k] is in use. *)
Definition used_below (k : nat) (st : state bool) : Prop :=
  forall j, (j < k)%nat -> flags st !! j = Some true.

(** Every slot is in use: the pool is exhausted. *)
Definition exhausted (N : nat) (st : state bool) : Prop :=
  length (flags st) = N /\ used_below N st.

(** A free slot still holds the zeros of the static initialiser. *)
Definition free_slots_zero (st : state bool) : Prop :=
  forall a s, mem st !! a = Some s -> used s = false ->
    s = mk_gpio 0%Z 0%Z false false.

(** The handle the [k]-th [gpioCreate] (counting from 0) returns when the
    array has [N] slots. *)
Definition nth_handle (N k : nat) : gpio_t :=
  if decide (k < N)%nat then Some k else NULL.

(** A client that only creates pins. *)
Definition creates (args : list (Z * Z)) : list (call unit) :=
  map (fun pb => Create tt (fst pb) (snd pb)) args.

(** Whether the members a client can see are all zero. *)
Definition zeroed {U} (s : gpio_s U) : Prop :=
  port s = 0%Z /\ bit s = 0%Z /\ output s = false.

(** A HAL that has received no call yet and whose pins all read [level]. *)
Definition mock_hal (level : bool) : hal_t :=
  mk_hal [] (fun _ _ _ => level).

(** What a block obtained from [malloc] may hold before it is written. *)
Definition stale_block : gpio_s unit := mk_gpio 170%Z 85%Z true tt.

(** What a test sees of a run: the values returned and the calls the
    HAL has recorded. *)
Definition outcome {U} (r : option (list value * state U))
    : option (list value * list hal_call) :=
  match r with
  | Some (vs, st) => Some (vs, hal_calls (hal st))
  | None => None
  end.

(** The pin a HAL call is about. *)
Definition pin_of (c : hal_call) : uint8_t * uint8_t :=
  match c with
  | set_direction p b _ | set_output p b _ | get_input p b => (p, b)
  end.

(** How many slots of the static array are in use. *)
Definition used_count (st : state bool) : nat :=
  length (filter (fun u : bool => u = true) (flags st)).

(** The answers [malloc] gives to the [gpioCreate] calls of a client of
    the dynamic build, in order. *)
Fixpoint answers (prog : list (call (option (gpio_s unit))))
    : list (option (gpio_s unit)) :=
  match prog with
  | [] => []
  | Create e _ _ :: prog' => e :: answers prog'
  | _ :: prog' => answers prog'
  end.

(** Whether an optional result is present (a non-NULL pointer, a granted
    allocation). *)
Definition succeeded {A} (o : option A) : bool :=
  if o is Some _ then true else false.

(** A HAL call is on a live pin when some slot in use holds its port and
    bit. *)
Definition on_live_pin (st : state bool) (c : hal_call) : Prop :=
  exists a s, mem st !! a = Some s /\ used s = true /\
    pin_of c = (port s, bit s).

(* ===================================================================== *)
(** ** The accessors on one object *)
(* ===================================================================== *)

Ltac unfold_c :=
  unfold gpioSetOutput, gpioSetState, gpioGetState, gpioCreate,
    hal_gpio_set_direction, hal_gpio_set_output, hal_gpio_get_input,
    bind, load, store, ret; simpl.

Tactic Notation "unfold_c" "in" hyp(H) :=
  unfold gpioSetOutput, gpioSetState, gpioGetState, gpioCreate,
    hal_gpio_set_direction, hal_gpio_set_output, hal_gpio_get_input,
    bind, load, store, ret in H; simpl in H.

Ltac proj_c :=
  cbn [mem hal port bit output used with_port with_bit with_output with_used
       fst snd].

Tactic Notation "proj_c" "in" hyp(H) :=
  cbn [mem hal port bit output used with_port with_bit with_output with_used
       fst snd] in H.

Section FacadeFacts.
Context {U : Type}.
Implicit Types (st : state U) (s : gpio_s U) (a : nat).

Lemma insert_lookup_same st a s s' :
  mem st !! a = Some s -> <[a := s']> (mem st) !! a = Some s'.
Proof.
  intros H. apply list_lookup_insert_eq. eapply lookup_lt_Some, H.
Qed.

Lemma gpioSetOutput_eq st a s v :
  mem st !! a = Some s ->
  gpioSetOutput (Some a) v st =
    Some (tt, mk_state (<[a := with_output s v]> (mem st))
                (record_call (set_direction (port s) (bit s) v) (hal st))).
Proof.
  intros H. unfold_c. rewrite H.
  repeat (proj_c; rewrite (insert_lookup_same _ _ _ _ H)).
  reflexivity.
Qed.

Lemma gpioSetState_eq st a s v :
  mem st !! a = Some s ->
  gpioSetState (Some a) v st =
    Some (tt, if output s
              then mk_state (mem st)
                     (record_call (set_output (port s) (bit s) v) (hal st))
              else st).
Proof.
  intros H. unfold_c. rewrite H. destruct (output s); simpl.
  - rewrite !H. reflexivity.
  - reflexivity.
Qed.

Lemma gpioGetState_eq st a s :
  mem st !! a = Some s ->
  gpioGetState (Some a) st =
    Some (hal_level (hal st) (hal_calls (hal st)) (port s) (bit s),
          mk_state (mem st) (record_call (get_input (port s) (bit s)) (hal st))).
Proof.
  intros H. unfold_c. rewrite !H. reflexivity.
Qed.

(** An accessor that returns was given the address of an object. *)
Lemma gpioSetOutput_defined st self v r :
  gpioSetOutput self v st = Some r -> exists a s, self = Some a /\ mem st !! a = Some s.
Proof.
  unfold_c. destruct self as [a|]; [|discriminate].
  destruct (mem st !! a) as [s|] eqn:E; [eauto|discriminate].
Qed.

Lemma gpioSetState_defined st self v r :
  gpioSetState self v st = Some r -> exists a s, self = Some a /\ mem st !! a = Some s.
Proof.
  unfold_c. destruct self as [a|]; [|discriminate].
  destruct (mem st !! a) as [s|] eqn:E; [eauto|discriminate].
Qed.

Lemma gpioGetState_defined st self r :
  gpioGetState self st = Some r -> exists a s, self = Some a /\ mem st !! a = Some s.
Proof.
  unfold_c. destruct self as [a|]; [|discriminate].
  destruct (mem st !! a) as [s|] eqn:E; [eauto|discriminate].
Qed.

(** [gpioCreate] after its allocation: the three assignments. *)
Lemma gpioCreate_eq (allocate : M U gpio_t) st p b a s st0 :
  allocate st = Some (Some a, st0) ->
  mem st0 !! a = Some s ->
  gpioCreate allocate p b st =
    Some (Some a,
          mk_state (<[a := mk_gpio (to_uint8 p) (to_uint8 b) false (used s)]> (mem st0))
            (hal st0)).
Proof.
  intros Ha Hs. unfold_c. rewrite Ha. proj_c. rewrite Hs. proj_c.
  rewrite (insert_lookup_same _ _ _ _ Hs). proj_c.
  rewrite list_lookup_insert_eq
    by (rewrite length_insert; eapply lookup_lt_Some, Hs).
  proj_c. rewrite !list_insert_insert_eq. reflexivity.
Qed.

Lemma gpioCreate_null (allocate : M U gpio_t) st p b st0 :
  allocate st = Some (NULL, st0) ->
  gpioCreate allocate p b st = Some (NULL, st0).
Proof. intros Ha. unfold_c. rewrite Ha. reflexivity. Qed.

Lemma gpioCreate_inv (allocate : M U gpio_t) st p b h st' :
  gpioCreate allocate p b st = Some (h, st') ->
  exists st0, allocate st = Some (h, st0) /\
    match h with
    | Some a => exists s, mem st0 !! a = Some s /\
        st' = mk_state (<[a := mk_gpio (to_uint8 p) (to_uint8 b) false (used s)]> (mem st0))
                (hal st0)
    | None => st' = st0
    end.
Proof.
  intros H. destruct (allocate st) as [[[a|] st0]|] eqn:Ha.
  - destruct (mem st0 !! a) as [s|] eqn:Hs.
    + rewrite (gpioCreate_eq _ _ _ _ _ _ _ Ha Hs) in H. inversion H; subst.
      exists st0. split; [reflexivity|]. exists s. split; [assumption|reflexivity].
    + unfold_c in H. rewrite Ha in H. proj_c in H. rewrite Hs in H. discriminate.
  - rewrite (gpioCreate_null _ _ _ _ _ Ha) in H. inversion H; subst.
    exists st'. split; reflexivity.
  - unfold_c in H. rewrite Ha in H. discriminate.
Qed.
End FacadeFacts.

(* ===================================================================== *)
(** ** One object through a client run *)
(* ===================================================================== *)

(** The facts of this section hold for any allocator that leaves the
    objects already handed out alone and never hands one out twice; both
    builds have such an allocator.  [owned u] says that an object whose
    [used] member is [u] has been handed out. *)
Section ClientFacts.
Context {U E : Type}.
Variable allocate : E -> M U gpio_t.
Variable owned : U -> Prop.
Hypothesis allocate_frame : forall e st h st',
  allocate e st = Some (h, st') ->
  hal st' = hal st /\
  forall a s, mem st !! a = Some s -> owned (used s) ->
    mem st' !! a = Some s /\ h <> Some a.

Implicit Types (st : state U) (s : gpio_s U) (a : nat).

Lemma gpioCreate_frame e p b st h st' :
  gpioCreate (allocate e) p b st = Some (h, st') ->
  hal st' = hal st /\
  forall a s, mem st !! a = Some s -> owned (used s) ->
    mem st' !! a = Some s /\ h <> Some a.
Proof.
  intros H. apply gpioCreate_inv in H as (st0 & Ha & Hh).
  apply allocate_frame in Ha as [Hhal Hfr].
  destruct h as [a0|].
  - destruct Hh as (s0 & Hs0 & ->). split; [exact Hhal|].
    intros a s Hs Ho. destruct (Hfr a s Hs Ho) as [Hs' Hne].
    split; [|exact Hne]. proj_c.
    rewrite list_lookup_insert_ne by congruence. exact Hs'.
  - subst st'. split; [exact Hhal|exact Hfr].
Qed.

Lemma exec_tracks c st v st' a s :
  mem st !! a = Some s -> owned (used s) ->
  exec allocate c st = Some (v, st') ->
  exists s', mem st' !! a = Some s' /\
    port s' = port s /\ bit s' = bit s /\ used s' = used s /\
    output s' = default (output s) (last_set_output (Some a) [c]) /\
    v <> Handle (Some a).
Proof.
  intros Hs Ho H. destruct c as [e p b|self o|self o|self];
    unfold exec, bind, ret in H.
  - destruct (gpioCreate (allocate e) p b st) as [[h st1]|] eqn:Hc; [|discriminate].
    inversion H; subst. apply gpioCreate_frame in Hc as [_ Hfr].
    destruct (Hfr a s Hs Ho) as [Hs' Hne].
    exists s. repeat split; solve [exact Hs'|congruence|reflexivity].
  - destruct (gpioSetOutput self o st) as [[[] st1]|] eqn:Hc; [|discriminate].
    inversion H; subst.
    destruct (gpioSetOutput_defined _ _ _ _ Hc) as (a0 & s0 & -> & Hs0).
    rewrite (gpioSetOutput_eq _ _ _ _ Hs0) in Hc. inversion Hc; subst. proj_c.
    simpl. destruct (decide _) as [Heq|Hne].
    + inversion Heq; subst a0. rewrite Hs in Hs0. inversion Hs0; subst s0.
      rewrite (insert_lookup_same _ _ _ _ Hs).
      exists (with_output s o). repeat split; discriminate || reflexivity.
    + rewrite list_lookup_insert_ne by congruence.
      exists s. repeat split; solve [exact Hs|discriminate|reflexivity].
  - destruct (gpioSetState self o st) as [[[] st1]|] eqn:Hc; [|discriminate].
    inversion H; subst.
    destruct (gpioSetState_defined _ _ _ _ Hc) as (a0 & s0 & -> & Hs0).
    rewrite (gpioSetState_eq _ _ _ _ Hs0) in Hc. inversion Hc; subst.
    exists s. destruct (output s0); repeat split;
      solve [exact Hs|discriminate|reflexivity].
  - destruct (gpioGetState self st) as [[r st1]|] eqn:Hc; [|discriminate].
    inversion H; subst.
    destruct (gpioGetState_defined _ _ _ Hc) as (a0 & s0 & -> & Hs0).
    rewrite (gpioGetState_eq _ _ _ Hs0) in Hc. inversion Hc; subst.
    exists s. repeat split; solve [exact Hs|discriminate|reflexivity].
Qed.

Lemma run_cons c prog st vs st' :
  run allocate (c :: prog) st = Some (vs, st') ->
  exists v st1 vs', exec allocate c st = Some (v, st1) /\
    run allocate prog st1 = Some (vs', st') /\ vs = v :: vs'.
Proof.
  simpl. unfold bind at 1.
  destruct (exec allocate c st) as [[v st1]|]; [|discriminate].
  unfold bind at 1.
  destruct (run allocate prog st1) as [[vs' st2]|] eqn:Hr; [|discriminate].
  unfold ret. intros H. inversion H; subst.
  exists v, st1, vs'. repeat split. exact Hr.
Qed.

Lemma run_tracks prog : forall st vs st' a s,
  mem st !! a = Some s -> owned (used s) ->
  run allocate prog st = Some (vs, st') ->
  exists s', mem st' !! a = Some s' /\
    port s' = port s /\ bit s' = bit s /\ used s' = used s /\
    output s' = default (output s) (last_set_output (Some a) prog) /\
    Some a ∉ handles vs.
Proof.
  induction prog as [|c prog IH]; intros st vs st' a s Hs Ho H.
  - inversion H; subst. exists s. repeat split; [exact Hs|]. simpl. apply not_elem_of_nil.
  - apply run_cons in H as (v & st1 & vs' & Hc & Hr & ->).
    destruct (exec_tracks _ _ _ _ _ _ Hs Ho Hc) as (s1 & Hs1 & Hp & Hb & Hu & Hd & Hv).
    assert (Ho1 : owned (used s1)) by (rewrite Hu; exact Ho).
    destruct (IH _ _ _ _ _ Hs1 Ho1 Hr) as (s2 & Hs2 & Hp2 & Hb2 & Hu2 & Hd2 & Hv2).
    exists s2. repeat split; try congruence.
    + rewrite Hd2, Hd. simpl.
      destruct (last_set_output (Some a) prog); reflexivity.
    + destruct v as [h| |lv]; simpl; try exact Hv2.
      rewrite not_elem_of_cons. split; [congruence|exact Hv2].
Qed.
End ClientFacts.

(* ===================================================================== *)
(** ** The static allocator *)
(* ===================================================================== *)

Section StaticFacts.
Implicit Types (st : state bool) (s : gpio_s bool) (a j k : nat).

(** What the scan returns, when it returns. *)
Lemma allocate_loop_spec remaining : forall index st h st',
  allocate_loop index remaining st = Some (h, st') ->
  match h with
  | Some a =>
      (index <= a < index + remaining)%nat /\
      (exists s, mem st !! a = Some s /\ used s = false /\
         st' = mk_state (<[a := with_used s true]> (mem st)) (hal st)) /\
      (forall j, (index <= j < a)%nat ->
         exists s, mem st !! j = Some s /\ used s = true)
  | None =>
      st' = st /\
      (forall j, (index <= j < index + remaining)%nat ->
         exists s, mem st !! j = Some s /\ used s = true)
  end.
Proof.
  induction remaining as [|r IH]; intros index st h st' H; simpl in H.
  - inversion H; subst. split; [reflexivity|]. intros j Hj. lia.
  - unfold bind at 1, load in H.
    destruct (mem st !! index) as [s|] eqn:Hs; [|discriminate].
    destruct (used s) eqn:Hu; simpl in H.
    + apply IH in H. destruct h as [a|].
      * destruct H as (Hr & Hst & Hbelow). split; [lia|]. split; [exact Hst|].
        intros j Hj. destruct (decide (j = index)) as [->|Hne]; [eauto|].
        apply Hbelow. lia.
      * destruct H as (-> & Hbelow). split; [reflexivity|].
        intros j Hj. destruct (decide (j = index)) as [->|Hne]; [eauto|].
        apply Hbelow. lia.
    + unfold bind, store, ret in H. rewrite Hs in H. inversion H; subst.
      split; [lia|]. split; [eauto|]. intros j Hj. lia.
Qed.

(** The scan returns as long as the array has the slots it visits. *)
Lemma allocate_loop_total remaining : forall index st,
  (index + remaining <= length (mem st))%nat ->
  exists h st', allocate_loop index remaining st = Some (h, st').
Proof.
  induction remaining as [|r IH]; intros index st Hlen; simpl.
  - unfold ret. eauto.
  - unfold bind at 1, load.
    destruct (lookup_lt_is_Some_2 (mem st) index) as [s Hs]; [lia|].
    rewrite Hs. destruct (used s); simpl.
    + apply IH. lia.
    + unfold bind, store, ret. rewrite Hs. eauto.
Qed.

Lemma allocateInstance_total N st :
  length (mem st) = N ->
  exists h st', allocateInstance N st = Some (h, st').
Proof. intros H. apply allocate_loop_total. lia. Qed.

(** The allocator leaves used slots alone and never returns one. *)
Lemma allocateInstance_frame N (e : unit) st h st' :
  allocateInstance N st = Some (h, st') ->
  hal st' = hal st /\
  forall a s, mem st !! a = Some s -> used s = true ->
    mem st' !! a = Some s /\ h <> Some a.
Proof.
  intros H. apply allocate_loop_spec in H. destruct h as [a0|].
  - destruct H as (_ & (s0 & Hs0 & Hu0 & ->) & _). split; [reflexivity|].
    intros a s Hs Hu. assert (a0 <> a) by (intros ->; congruence).
    split; [|congruence]. proj_c. rewrite list_lookup_insert_ne by assumption.
    exact Hs.
  - destruct H as (-> & _). split; [reflexivity|]. intros a s Hs Hu.
    split; [exact Hs|discriminate].
Qed.

(** [gpioCreate] on the static array, in full. *)
Lemma gpioCreate_static_inv N p b st h st' :
  gpioCreate_static N p b st = Some (h, st') ->
  match h with
  | Some a =>
      (a < N)%nat /\
      (exists s, mem st !! a = Some s /\ used s = false) /\
      (forall j, (j < a)%nat -> exists s, mem st !! j = Some s /\ used s = true) /\
      st' = mk_state (<[a := mk_gpio (to_uint8 p) (to_uint8 b) false true]> (mem st))
              (hal st)
  | None =>
      st' = st /\
      (forall j, (j < N)%nat -> exists s, mem st !! j = Some s /\ used s = true)
  end.
Proof.
  intros H. apply gpioCreate_inv in H as (st0 & Ha & Hh).
  apply allocate_loop_spec in Ha. destruct h as [a|].
  - destruct Ha as (Hr & (s & Hs & Hu & ->) & Hbelow).
    destruct Hh as (s1 & Hs1 & ->). proj_c in Hs1.
    rewrite (insert_lookup_same _ _ _ _ Hs) in Hs1. inversion Hs1; subst s1.
    proj_c. rewrite list_insert_insert_eq.
    split; [lia|]. split; [eauto|]. split; [|reflexivity].
    intros j Hj. apply Hbelow. lia.
  - destruct Ha as (-> & Hbelow). split; [exact Hh|].
    intros j Hj. apply Hbelow. lia.
Qed.

Lemma gpioCreate_static_total N p b st :
  length (mem st) = N ->
  exists h st', gpioCreate_static N p b st = Some (h, st').
Proof.
  intros Hlen. destruct (allocateInstance_total N st Hlen) as (h & st0 & Ha).
  destruct h as [a|].
  - pose proof (allocate_loop_spec _ _ _ _ _ Ha) as (_ & (s & Hs & _ & Hst) & _).
    assert (Hs0 : mem st0 !! a = Some (with_used s true)).
    { rewrite Hst. proj_c. apply (insert_lookup_same _ _ _ _ Hs). }
    unfold gpioCreate_static. rewrite (gpioCreate_eq _ _ _ _ _ _ _ Ha Hs0). eauto.
  - unfold gpioCreate_static. rewrite (gpioCreate_null _ _ _ _ _ Ha). eauto.
Qed.
End StaticFacts.

(* ===================================================================== *)
(** ** Clients of the static build *)
(* ===================================================================== *)

Section StaticClientFacts.
Variable N : nat.
Implicit Types (st : state bool) (s : gpio_s bool) (a j k : nat).

Lemma flags_lookup st j s : mem st !! j = Some s -> flags st !! j = Some (used s).
Proof. intros H. unfold flags. rewrite list_lookup_fmap, H. reflexivity. Qed.

Lemma flags_lookup_inv st j u :
  flags st !! j = Some u -> exists s, mem st !! j = Some s /\ used s = u.
Proof.
  unfold flags. rewrite list_lookup_fmap.
  destruct (mem st !! j) as [s|]; simpl; [|discriminate].
  intros H. inversion H. eauto.
Qed.

Lemma flags_length st : length (flags st) = length (mem st).
Proof. unfold flags. apply length_fmap. Qed.

Lemma flags_insert st a s s' h :
  mem st !! a = Some s -> used s' = used s ->
  flags (mk_state (<[a := s']> (mem st)) h) = flags st.
Proof.
  intros Hs Hu. unfold flags. proj_c. rewrite list_fmap_insert, Hu.
  apply list_insert_id. rewrite list_lookup_fmap, Hs. reflexivity.
Qed.

(** The accessors change no [used] member. *)
Lemma accessor_flags c st v st' :
  exec (fun _ : unit => allocateInstance N) c st = Some (v, st') ->
  (if c is Create _ _ _ then False else True) ->
  flags st' = flags st /\ handles [v] = [].
Proof.
  intros H Hc. destruct c as [e p b|self o|self o|self]; [contradiction| | |];
    unfold exec, bind, ret in H.
  - destruct (gpioSetOutput self o st) as [[[] st1]|] eqn:E; [|discriminate].
    inversion H; subst.
    destruct (gpioSetOutput_defined _ _ _ _ E) as (a & s & -> & Hs).
    rewrite (gpioSetOutput_eq _ _ _ _ Hs) in E. inversion E; subst.
    split; [|reflexivity]. apply (flags_insert _ _ s); [exact Hs|reflexivity].
  - destruct (gpioSetState self o st) as [[[] st1]|] eqn:E; [|discriminate].
    inversion H; subst.
    destruct (gpioSetState_defined _ _ _ _ E) as (a & s & -> & Hs).
    rewrite (gpioSetState_eq _ _ _ _ Hs) in E. inversion E; subst.
    split; [|reflexivity]. destruct (output s); reflexivity.
  - destruct (gpioGetState self st) as [[r st1]|] eqn:E; [|discriminate].
    inversion H; subst.
    destruct (gpioGetState_defined _ _ _ E) as (a & s & -> & Hs).
    rewrite (gpioGetState_eq _ _ _ Hs) in E. inversion E; subst.
    split; reflexivity.
Qed.

(** [gpioCreate] marks the lowest free slot, or changes nothing. *)
Lemma create_flags p b st h st' :
  gpioCreate_static N p b st = Some (h, st') ->
  match h with
  | Some a =>
      (a < N)%nat /\ flags st !! a = Some false /\ used_below a st /\
      flags st' = <[a := true]> (flags st)
  | None => st' = st /\ used_below N st
  end.
Proof.
  intros H. apply gpioCreate_static_inv in H. destruct h as [a|].
  - destruct H as (Ha & (s & Hs & Hu) & Hbelow & ->).
    split; [exact Ha|]. split; [rewrite (flags_lookup _ _ _ Hs), Hu; reflexivity|].
    split.
    + intros j Hj. destruct (Hbelow j Hj) as (sj & Hsj & Huj).
      rewrite (flags_lookup _ _ _ Hsj), Huj. reflexivity.
    + unfold flags. proj_c. rewrite list_fmap_insert. reflexivity.
  - destruct H as (-> & Hbelow). split; [reflexivity|].
    intros j Hj. destruct (Hbelow j Hj) as (sj & Hsj & Huj).
    rewrite (flags_lookup _ _ _ Hsj), Huj. reflexivity.
Qed.

Lemma exec_create_inv e p b st v st' :
  exec (fun _ : unit => allocateInstance N) (Create e p b) st = Some (v, st') ->
  exists h, v = Handle h /\ gpioCreate_static N p b st = Some (h, st').
Proof.
  unfold exec, bind, ret, gpioCreate_static.
  destruct (gpioCreate (allocateInstance N) p b st) as [[h st1]|]; [|discriminate].
  intros H. inversion H; subst. eauto.
Qed.

Lemma first_used_init h0 : first_used N 0 (static_init N h0).
Proof.
  unfold first_used, flags, static_init, instances_init. proj_c.
  rewrite fmap_replicate. split; [apply length_replicate|].
  intros j u Hj. apply lookup_replicate in Hj as [-> _].
  rewrite bool_decide_eq_false_2 by lia. reflexivity.
Qed.

Lemma first_used_create k p b st h st' :
  first_used N k st ->
  gpioCreate_static N p b st = Some (h, st') ->
  h = nth_handle N k /\ first_used N (S k) st'.
Proof.
  intros [Hlen Hfl] H. apply create_flags in H. unfold nth_handle.
  destruct h as [a|].
  - destruct H as (Ha & Hfree & Hbelow & Hst).
    apply Hfl in Hfree. symmetry in Hfree. apply bool_decide_eq_false_1 in Hfree.
    assert (a = k) as ->.
    { destruct (decide (k < a)%nat) as [Hlt|]; [|lia].
      apply Hbelow, Hfl in Hlt. symmetry in Hlt.
      apply bool_decide_eq_true_1 in Hlt. lia. }
    rewrite decide_True by exact Ha. split; [reflexivity|].
    split; [rewrite Hst, length_insert; exact Hlen|].
    intros j u. rewrite Hst. destruct (decide (j = k)) as [->|Hne].
    + rewrite list_lookup_insert_eq by lia. intros [= <-].
      rewrite bool_decide_eq_true_2 by lia. reflexivity.
    + rewrite list_lookup_insert_ne by congruence. intros Hj.
      rewrite (Hfl _ _ Hj). apply bool_decide_ext. lia.
  - destruct H as (-> & Hbelow).
    assert (N <= k)%nat.
    { destruct (decide (k < N)%nat) as [Hlt|]; [|lia].
      apply Hbelow, Hfl in Hlt. symmetry in Hlt.
      apply bool_decide_eq_true_1 in Hlt. lia. }
    rewrite decide_False by lia. split; [reflexivity|]. split; [exact Hlen|].
    intros j u Hj. rewrite (Hfl _ _ Hj).
    apply lookup_lt_Some in Hj. apply bool_decide_ext. lia.
Qed.

Lemma first_used_total k p b st :
  first_used N k st ->
  exists st', gpioCreate_static N p b st = Some (nth_handle N k, st') /\
              first_used N (S k) st'.
Proof.
  intros Hk. destruct (gpioCreate_static_total N p b st) as (h & st' & H).
  { destruct Hk as [Hlen _]. rewrite <- flags_length. exact Hlen. }
  destruct (first_used_create _ _ _ _ _ _ Hk H) as [-> Hk'].
  exists st'. split; assumption.
Qed.

(** From a pool whose first [k] slots are in use, the creations of any
    client return slots [k], [k+1], ... and then NULL. *)
Lemma run_first_used prog : forall k st vs st',
  first_used N k st ->
  run_static N prog st = Some (vs, st') ->
  handles vs = map (nth_handle N) (seq k (count_creates prog)) /\
  first_used N (k + count_creates prog) st'.
Proof.
  induction prog as [|c prog IH]; intros k st vs st' Hk H.
  - inversion H; subst. simpl. rewrite Nat.add_0_r. split; [reflexivity|exact Hk].
  - apply run_cons in H as (v & st1 & vs' & Hc & Hr & ->).
    destruct c as [e p b|self o|self o|self].
    { apply exec_create_inv in Hc as (h & -> & Hc).
      destruct (first_used_create _ _ _ _ _ _ Hk Hc) as [-> Hk1].
      destruct (IH _ _ _ _ Hk1 Hr) as [Hh Hk2]. simpl. rewrite Hh.
      split; [reflexivity|]. replace (k + S (count_creates prog))%nat
        with (S k + count_creates prog)%nat by lia. exact Hk2. }
    all: (destruct (accessor_flags _ _ _ _ Hc I) as [Hf Hv];
      assert (Hk1 : first_used N k st1)
        by (unfold first_used; rewrite Hf; exact Hk);
      destruct (IH _ _ _ _ Hk1 Hr) as [Hh Hk2];
      split; [|exact Hk2];
      destruct v; try discriminate Hv; exact Hh).
Qed.

(** A client that only creates pins never faults. *)
Lemma creates_run args : forall k st,
  first_used N k st ->
  exists st',
    run_static N (creates args) st =
      Some (map (fun j => Handle (nth_handle N j)) (seq k (length args)), st') /\
    first_used N (k + length args) st'.
Proof.
  induction args as [|[p b] args IH]; intros k st Hk; simpl.
  - exists st. rewrite Nat.add_0_r. split; [reflexivity|exact Hk].
  - destruct (first_used_total k p b st Hk) as (st1 & Hc & Hk1).
    destruct (IH _ _ Hk1) as (st2 & Hr & Hk2). exists st2.
    unfold run_static in *. simpl. unfold bind at 1. unfold exec, bind at 1.
    unfold gpioCreate_static in Hc. simpl. rewrite Hc. unfold ret at 1.
    unfold bind at 1. rewrite Hr. split; [reflexivity|].
    replace (k + S (length args))%nat with (S k + length args)%nat by lia.
    exact Hk2.
Qed.

(** An exhausted pool stays exhausted, whatever the client does. *)
Lemma exhausted_create p b st :
  exhausted N st -> gpioCreate_static N p b st = Some (NULL, st).
Proof.
  intros [Hlen Hall].
  destruct (gpioCreate_static_total N p b st) as (h & st' & H).
  { rewrite <- flags_length. exact Hlen. }
  pose proof (create_flags _ _ _ _ _ H) as Hf. destruct h as [a|].
  - destruct Hf as (Ha & Hfree & _). rewrite (Hall a Ha) in Hfree. discriminate.
  - destruct Hf as [-> _]. exact H.
Qed.

Lemma exhausted_run prog : forall st vs st',
  exhausted N st ->
  run_static N prog st = Some (vs, st') ->
  exhausted N st'.
Proof.
  induction prog as [|c prog IH]; intros st vs st' Hx H.
  - inversion H; subst. exact Hx.
  - apply run_cons in H as (v & st1 & vs' & Hc & Hr & ->).
    apply (IH st1 vs'); [|exact Hr].
    destruct c as [e p b|self o|self o|self].
    { apply exec_create_inv in Hc as (h & -> & Hc).
      rewrite (exhausted_create _ _ _ Hx) in Hc. inversion Hc; subst. exact Hx. }
    all: (destruct (accessor_flags _ _ _ _ Hc I) as [Hf _];
      unfold exhausted, used_below; rewrite Hf; exact Hx).
Qed.

(** Successive creations return increasing addresses. *)
Lemma run_addresses_sorted prog : forall k st vs st',
  used_below k st ->
  run_static N prog st = Some (vs, st') ->
  Forall (fun a => (k <= a)%nat) (addresses (handles vs)) /\
  StronglySorted lt (addresses (handles vs)).
Proof.
  induction prog as [|c prog IH]; intros k st vs st' Hk H.
  - inversion H; subst. simpl. split; constructor.
  - apply run_cons in H as (v & st1 & vs' & Hc & Hr & ->).
    destruct c as [e p b|self o|self o|self].
    { apply exec_create_inv in Hc as (h & -> & Hc).
      apply create_flags in Hc. destruct h as [a|]; simpl.
      - destruct Hc as (Ha & Hfree & Hbelow & Hst).
        assert (Hka : (k <= a)%nat).
        { destruct (decide (a < k)%nat) as [Hlt|]; [|lia].
          rewrite (Hk a Hlt) in Hfree. discriminate. }
        assert (Hk1 : used_below (S a) st1).
        { intros j Hj. unfold used_below in *. rewrite Hst.
          destruct (decide (j = a)) as [->|Hne].
          - apply list_lookup_insert_eq. eapply lookup_lt_Some, Hfree.
          - rewrite list_lookup_insert_ne by congruence. apply Hbelow. lia. }
        destruct (IH _ _ _ _ Hk1 Hr) as [Hge Hsorted]. split.
        + constructor; [exact Hka|].
          eapply Forall_impl; [exact Hge|]. simpl. intros x Hx. lia.
        + constructor; [exact Hsorted|].
          eapply Forall_impl; [exact Hge|]. simpl. intros x Hx. lia.
      - destruct Hc as [-> _]. exact (IH _ _ _ _ Hk Hr). }
    all: (destruct (accessor_flags _ _ _ _ Hc I) as [Hf Hv];
      assert (Hk1 : used_below k st1)
        by (unfold used_below; rewrite Hf; exact Hk);
      destruct (IH _ _ _ _ Hk1 Hr) as [Hge Hsorted];
      destruct v; try discriminate Hv; split; assumption).
Qed.

Lemma sorted_lt_NoDup (l : list nat) : StronglySorted lt l -> NoDup l.
Proof.
  induction 1 as [|a l Hs IH Hall]; constructor; [|exact IH].
  intros Hin. rewrite Forall_forall in Hall. specialize (Hall a Hin). lia.
Qed.

(** What every state reachable by a well-behaved client satisfies. *)
Lemma reachable_inv h0 st :
  reachable N h0 st -> length (mem st) = N /\ free_slots_zero st.
Proof.
  induction 1 as [|st c v st' Hreach [Hlen Hzero] Hown Hc].
  - unfold static_init, instances_init, free_slots_zero. proj_c.
    split; [apply length_replicate|].
    intros a s Hs _. apply lookup_replicate in Hs as [-> _]. reflexivity.
  - destruct c as [e p b|self o|self o|self].
    + apply exec_create_inv in Hc as (h & -> & Hc).
      apply gpioCreate_static_inv in Hc. destruct h as [a|].
      * destruct Hc as (_ & _ & _ & ->). proj_c.
        split; [rewrite length_insert; exact Hlen|].
        intros j s. unfold free_slots_zero in Hzero. proj_c.
        destruct (decide (j = a)) as [->|Hne].
        -- destruct (decide (a < length (mem st))%nat).
           ++ rewrite list_lookup_insert_eq by assumption.
              intros [= <-]. discriminate.
           ++ rewrite list_insert_ge by lia. apply Hzero.
        -- rewrite list_lookup_insert_ne by congruence. apply Hzero.
      * destruct Hc as [-> _]. split; assumption.
    + destruct Hown as (a & s & -> & Hs & Hu).
      unfold exec, bind, ret in Hc. rewrite (gpioSetOutput_eq _ _ _ _ Hs) in Hc.
      injection Hc as <- <-. proj_c. split; [rewrite length_insert; exact Hlen|].
      intros j sj. unfold free_slots_zero in Hzero. proj_c.
      destruct (decide (j = a)) as [->|Hne].
      * rewrite (insert_lookup_same _ _ _ _ Hs). intros [= <-]. simpl.
        rewrite Hu. discriminate.
      * rewrite list_lookup_insert_ne by congruence. apply Hzero.
    + destruct Hown as (a & s & -> & Hs & Hu).
      unfold exec, bind, ret in Hc. rewrite (gpioSetState_eq _ _ _ _ Hs) in Hc.
      injection Hc as <- <-. destruct (output s); split; assumption.
    + destruct Hown as (a & s & -> & Hs & Hu).
      unfold exec, bind, ret in Hc. rewrite (gpioGetState_eq _ _ _ Hs) in Hc.
      injection Hc as <- <-. split; assumption.
Qed.
End StaticClientFacts.

(* ===================================================================== *)
(** ** The dynamic allocator *)
(* ===================================================================== *)

Section DynamicFacts.
Implicit Types (st : state unit) (s : gpio_s unit) (a : nat).

(** [malloc] leaves the existing objects alone and returns a new one. *)
Lemma malloc_frame answer st h st' :
  malloc answer st = Some (h, st') ->
  hal st' = hal st /\
  forall a s, mem st !! a = Some s -> True ->
    mem st' !! a = Some s /\ h <> Some a.
Proof.
  unfold malloc. destruct answer as [junk|]; intros [= <- <-].
  - split; [reflexivity|]. intros a s Hs _. proj_c.
    pose proof (lookup_lt_Some _ _ _ Hs). split.
    + rewrite lookup_app_l by assumption. exact Hs.
    + intros [= Heq]. lia.
  - split; [reflexivity|]. intros a s Hs _. split; [exact Hs|discriminate].
Qed.

Lemma gpioCreate_dynamic_some junk p b st :
  gpioCreate_dynamic (Some junk) p b st =
    Some (Some (length (mem st)),
          mk_state (mem st ++ [mk_gpio (to_uint8 p) (to_uint8 b) false tt])
            (hal st)).
Proof.
  unfold gpioCreate_dynamic.
  rewrite (gpioCreate_eq _ _ _ _ (length (mem st)) junk
             (mk_state (mem st ++ [junk]) (hal st))).
  - proj_c. rewrite insert_app_r_alt by lia. rewrite Nat.sub_diag.
    destruct junk as [jp jb jo []]. reflexivity.
  - reflexivity.
  - proj_c. rewrite lookup_app_r by lia. rewrite Nat.sub_diag. reflexivity.
Qed.

Lemma gpioCreate_dynamic_none p b st :
  gpioCreate_dynamic None p b st = Some (NULL, st).
Proof. reflexivity. Qed.
End DynamicFacts.

(* ===================================================================== *)
(** ** The end-to-end scenarios *)
(* ===================================================================== *)

(** Create, then read as an input. *)
Example scenario_read_default_input :
  outcome (run_static GPIO_MAX_INSTANCES_default
             [Create tt 2 5; GetState (Some 0%nat)]
             (static_init GPIO_MAX_INSTANCES_default (mock_hal true))) =
  Some ([Handle (Some 0%nat); Level true], [get_input 2 5]).
Proof. vm_compute. reflexivity. Qed.

(** Configure as output and write high. *)
Example scenario_output_write :
  outcome (run_static GPIO_MAX_INSTANCES_default
             [Create tt 1 0; SetOutput (Some 0%nat) true; SetState (Some 0%nat) true]
             (static_init GPIO_MAX_INSTANCES_default (mock_hal false))) =
  Some ([Handle (Some 0%nat); Void; Void],
        [set_direction 1 0 true; set_output 1 0 true]).
Proof. vm_compute. reflexivity. Qed.

(** A write while input is ignored. *)
Example scenario_write_ignored :
  outcome (run_static GPIO_MAX_INSTANCES_default
             [Create tt 3 7; SetState (Some 0%nat) true]
             (static_init GPIO_MAX_INSTANCES_default (mock_hal false))) =
  Some ([Handle (Some 0%nat); Void], []).
Proof. vm_compute. reflexivity. Qed.

(** Back to input: the second write is ignored. *)
Example scenario_toggle_direction :
  outcome (run_static GPIO_MAX_INSTANCES_default
             [Create tt 0 0; SetOutput (Some 0%nat) true; SetState (Some 0%nat) true;
              SetOutput (Some 0%nat) false; SetState (Some 0%nat) false]
             (static_init GPIO_MAX_INSTANCES_default (mock_hal false))) =
  Some ([Handle (Some 0%nat); Void; Void; Void; Void],
        [set_direction 0 0 true; set_output 0 0 true; set_direction 0 0 false]).
Proof. vm_compute. reflexivity. Qed.

(** Two slots: the third creation fails. *)
Example scenario_pool_exhaustion :
  outcome (run_static 2 [Create tt 0 0; Create tt 0 1; Create tt 0 2]
             (static_init 2 (mock_hal false))) =
  Some ([Handle (Some 0%nat); Handle (Some 1%nat); Handle NULL], []).
Proof. vm_compute. reflexivity. Qed.

(** The same client in the dynamic build, the second [malloc] refused. *)
Example scenario_dynamic :
  outcome (run_dynamic
             [Create (Some stale_block) 1 0; SetState (Some 0%nat) true;
              SetOutput (Some 0%nat) true; SetState (Some 0%nat) true;
              Create None 1 1]
             (dynamic_init (mock_hal false))) =
  Some ([Handle (Some 0%nat); Void; Void; Void; Handle NULL],
        [set_direction 1 0 true; set_output 1 0 true]).
Proof. vm_compute. reflexivity. Qed.

(** An accessor given NULL faults. *)
Example scenario_null_handle :
  outcome (run_static 2 [Create tt 0 0; Create tt 0 1; Create tt 0 2;
                         SetOutput NULL true]
             (static_init 2 (mock_hal false))) = None.
Proof. vm_compute. reflexivity. Qed.

(* ===================================================================== *)
(** ** A handle from its creation on *)
(* ===================================================================== *)

(** The object behind a handle, after the calls [prog] that follow its
    creation: port and bit are the ones given to [gpioCreate], the
    direction is the one last given to [gpioSetOutput], and no later
    [gpioCreate] returned the same handle. *)
Lemma static_handle_tracks N p b st a st1 prog vs st2 :
  gpioCreate_static N p b st = Some (Some a, st1) ->
  run_static N prog st1 = Some (vs, st2) ->
  exists s, mem st2 !! a = Some s /\
    port s = to_uint8 p /\ bit s = to_uint8 b /\ used s = true /\
    output s = default false (last_set_output (Some a) prog) /\
    Some a ∉ handles vs.
Proof.
  intros Hc Hr.
  apply gpioCreate_static_inv in Hc as (_ & (s & Hs & _) & _ & ->).
  pose proof (insert_lookup_same st a s
                (mk_gpio (to_uint8 p) (to_uint8 b) false true) Hs) as Hs1.
  exact (run_tracks (fun _ : unit => allocateInstance N) (fun u => u = true)
           (allocateInstance_frame N) prog
           (mk_state (<[a := _]> (mem st)) (hal st)) _ _ a _ Hs1 eq_refl Hr).
Qed.

Lemma dynamic_handle_tracks answer p b st a st1 prog vs st2 :
  gpioCreate_dynamic answer p b st = Some (Some a, st1) ->
  run_dynamic prog st1 = Some (vs, st2) ->
  exists s, mem st2 !! a = Some s /\
    port s = to_uint8 p /\ bit s = to_uint8 b /\ used s = tt /\
    output s = default false (last_set_output (Some a) prog) /\
    Some a ∉ handles vs.
Proof.
  intros Hc Hr. destruct answer as [junk|]; [|discriminate].
  rewrite gpioCreate_dynamic_some in Hc. injection Hc as <- <-.
  assert (Hs1 : mem (mk_state
                  (mem st ++ [mk_gpio (to_uint8 p) (to_uint8 b) false tt])
                  (hal st)) !! length (mem st)
                = Some (mk_gpio (to_uint8 p) (to_uint8 b) false tt)).
  { proj_c. rewrite lookup_app_r, Nat.sub_diag by lia. reflexivity. }
  exact (run_tracks malloc (fun _ => True) malloc_frame prog
           _ _ _ _ _ Hs1 I Hr).
Qed.

(* ===================================================================== *)
(** ** Properties of the pin facade *)
(* ===================================================================== *)

(** C1 (direction gating).  Let [gpioCreate] return the handle [a] and let
    the client then make the calls [prog], on this and on other handles.
    A following [gpioSetState] on [a] with level [v] returns normally; it
    makes the HAL call [hal_gpio_set_output (port, bit, v)], once, exactly
    when the most recent [gpioSetOutput] on [a] in [prog] was given
    [true], and otherwise (the most recent one was given [false], or there
    was none) it leaves the whole state, HAL included, as it was.  This
    holds in the static and in the dynamic build, and it is the test of
    the cached direction that decides. *)
Theorem direction_gating :
  (forall N p b st a st1 prog vs st2 v,
      gpioCreate_static N p b st = Some (Some a, st1) ->
      run_static N prog st1 = Some (vs, st2) ->
      gpioSetState (Some a) v st2 =
        Some (tt, if default false (last_set_output (Some a) prog)
                  then mk_state (mem st2)
                         (record_call (set_output (to_uint8 p) (to_uint8 b) v) (hal st2))
                  else st2)) /\
  (forall answer p b st a st1 prog vs st2 v,
      gpioCreate_dynamic answer p b st = Some (Some a, st1) ->
      run_dynamic prog st1 = Some (vs, st2) ->
      gpioSetState (Some a) v st2 =
        Some (tt, if default false (last_set_output (Some a) prog)
                  then mk_state (mem st2)
                         (record_call (set_output (to_uint8 p) (to_uint8 b) v) (hal st2))
                  else st2)) /\
  (forall U (st : state U) a s v,
      mem st !! a = Some s ->
      gpioSetState (Some a) v st =
        Some (tt, if output s
                  then mk_state (mem st)
                         (record_call (set_output (port s) (bit s) v) (hal st))
                  else st)).
Proof.
  split; [|split].
  - intros N p b st a st1 prog vs st2 v Hc Hr.
    destruct (static_handle_tracks _ _ _ _ _ _ _ _ _ Hc Hr)
      as (s2 & Hs2 & Hp & Hb & _ & Hd & _).
    rewrite (gpioSetState_eq _ _ _ _ Hs2), Hd, Hp, Hb. reflexivity.
  - intros answer p b st a st1 prog vs st2 v Hc Hr.
    destruct (dynamic_handle_tracks _ _ _ _ _ _ _ _ _ Hc Hr)
      as (s2 & Hs2 & Hp & Hb & _ & Hd & _).
    rewrite (gpioSetState_eq _ _ _ _ Hs2), Hd, Hp, Hb. reflexivity.
  - intros U st a s v Hs. apply gpioSetState_eq, Hs.
Qed.

(** C2 (exhaustion bound, static build).  From the freshly initialised
    array of [N] slots: a client that only creates pins never faults, and
    its [k]-th creation (counting from 0) returns the non-NULL handle of
    slot [k] when [k < N] and NULL from the [N]-th on; the same holds for
    the creations of any client, whatever accessor calls it makes in
    between; and once every slot is in use, [gpioCreate] returns NULL and
    changes nothing after any further calls. *)
Theorem exhaustion_bound :
  (forall N k, (k < N)%nat -> nth_handle N k = Some k) /\
  (forall N k, (N <= k)%nat -> nth_handle N k = NULL) /\
  (forall N h0 args, exists st',
      run_static N (creates args) (static_init N h0) =
        Some (map (fun k => Handle (nth_handle N k)) (seq 0 (length args)), st')) /\
  (forall N h0 prog vs st',
      run_static N prog (static_init N h0) = Some (vs, st') ->
      handles vs = map (nth_handle N) (seq 0 (count_creates prog))) /\
  (forall N st prog vs st' p b,
      exhausted N st ->
      run_static N prog st = Some (vs, st') ->
      gpioCreate_static N p b st' = Some (NULL, st')).
Proof.
  repeat split.
  - intros N k Hk. unfold nth_handle. apply decide_True, Hk.
  - intros N k Hk. unfold nth_handle. apply decide_False. lia.
  - intros N h0 args.
    destruct (creates_run N args 0 _ (first_used_init N h0)) as (st' & Hr & _).
    exists st'. exact Hr.
  - intros N h0 prog vs st' Hr.
    apply (run_first_used N prog 0 _ _ _ (first_used_init N h0) Hr).
  - intros N st prog vs st' p b Hx Hr.
    apply exhausted_create. exact (exhausted_run N prog _ _ _ Hx Hr).
Qed.

(** C3 (allocation order, static build).  A successful [gpioCreate] claims
    the lowest-indexed slot whose [used] flag is false and sets the flag;
    the non-NULL handles returned by the successive creations of any
    client run, from any state of the array, have strictly increasing slot
    indices and are therefore pairwise distinct; and with three slots,
    three successive creations return slots 0, 1 and 2 in that order. *)
Theorem allocation_order :
  (forall N p b st a st',
      gpioCreate_static N p b st = Some (Some a, st') ->
      flags st !! a = Some false /\
      (forall j, (j < a)%nat -> flags st !! j = Some true) /\
      flags st' = <[a := true]> (flags st)) /\
  (forall N prog st vs st',
      run_static N prog st = Some (vs, st') ->
      StronglySorted lt (addresses (handles vs)) /\
      NoDup (addresses (handles vs))) /\
  (forall h0 p1 b1 p2 b2 p3 b3, exists st',
      run_static 3 (creates [(p1, b1); (p2, b2); (p3, b3)]) (static_init 3 h0) =
        Some ([Handle (Some 0%nat); Handle (Some 1%nat); Handle (Some 2%nat)], st')).
Proof.
  split; [|split].
  - intros N p b st a st' Hc. apply create_flags in Hc as (_ & Hfree & Hbelow & Hst).
    split; [exact Hfree|]. split; [exact Hbelow|exact Hst].
  - intros N prog st vs st' Hr.
    assert (H0 : used_below 0 st) by (intros j Hj; lia).
    destruct (run_addresses_sorted N prog 0 _ _ _ H0 Hr) as [_ Hs].
    split; [exact Hs|apply sorted_lt_NoDup, Hs].
  - intros h0 p1 b1 p2 b2 p3 b3.
    destruct (creates_run 3 [(p1, b1); (p2, b2); (p3, b3)] 0 _
                (first_used_init 3 h0)) as (st' & Hr & _).
    exists st'. exact Hr.
Qed.

(** C4 (initial direction).  In both builds, the object behind every
    non-NULL handle returned by [gpioCreate] has [output = false], and a
    [gpioSetState] that comes first on that handle returns normally and
    leaves the state, HAL included, unchanged: it makes no HAL call. *)
Theorem initial_direction_input :
  (forall N p b st a st',
      gpioCreate_static N p b st = Some (Some a, st') ->
      (exists s, mem st' !! a = Some s /\ output s = false) /\
      forall v, gpioSetState (Some a) v st' = Some (tt, st')) /\
  (forall answer p b st a st',
      gpioCreate_dynamic answer p b st = Some (Some a, st') ->
      (exists s, mem st' !! a = Some s /\ output s = false) /\
      forall v, gpioSetState (Some a) v st' = Some (tt, st')).
Proof.
  split.
  - intros N p b st a st' Hc.
    assert (Hr : run_static N [] st' = Some ([], st')) by reflexivity.
    destruct (static_handle_tracks _ _ _ _ _ _ _ _ _ Hc Hr)
      as (s & Hs & _ & _ & _ & Hd & _).
    split; [exists s; split; assumption|].
    intros v. rewrite (gpioSetState_eq _ _ _ _ Hs), Hd. reflexivity.
  - intros answer p b st a st' Hc.
    assert (Hr : run_dynamic [] st' = Some ([], st')) by reflexivity.
    destruct (dynamic_handle_tracks _ _ _ _ _ _ _ _ _ Hc Hr)
      as (s & Hs & _ & _ & _ & Hd & _).
    split; [exists s; split; assumption|].
    intros v. rewrite (gpioSetState_eq _ _ _ _ Hs), Hd. reflexivity.
Qed.

(** C5 (set_output forwarding).  For a handle [a] that designates the
    object [s], [gpioSetOutput] with [v] returns normally in a state where
    the object's [output] member is [v] and nothing else in memory has
    changed, and where the HAL has received exactly one more call,
    [hal_gpio_set_direction (port s, bit s, v)].  Nothing depends on the
    previous value of [output s]. *)
Theorem set_output_forwarding U (st : state U) a s v :
  mem st !! a = Some s ->
  exists st',
    gpioSetOutput (Some a) v st = Some (tt, st') /\
    mem st' = <[a := with_output s v]> (mem st) /\
    mem st' !! a = Some (mk_gpio (port s) (bit s) v (used s)) /\
    hal_calls (hal st') =
      hal_calls (hal st) ++ [set_direction (port s) (bit s) v] /\
    hal_level (hal st') = hal_level (hal st).
Proof.
  intros Hs. eexists. split; [apply gpioSetOutput_eq, Hs|]. proj_c.
  split; [reflexivity|]. split; [apply (insert_lookup_same _ _ _ _ Hs)|].
  split; reflexivity.
Qed.

(** C6 (get_state forwarding).  For a handle [a] that designates the
    object [s], [gpioGetState] returns the level the HAL reports for
    [(port s, bit s)], the HAL has received exactly one more call,
    [hal_gpio_get_input (port s, bit s)], and memory is unchanged.
    [output s] is not consulted. *)
Theorem get_state_forwarding U (st : state U) a s :
  mem st !! a = Some s ->
  gpioGetState (Some a) st =
    Some (hal_level (hal st) (hal_calls (hal st)) (port s) (bit s),
          mk_state (mem st)
            (mk_hal (hal_calls (hal st) ++ [get_input (port s) (bit s)])
               (hal_level (hal st)))).
Proof. intros Hs. apply gpioGetState_eq, Hs. Qed.

(** C7, as stated, fails in the dynamic build: the block [malloc] returns
    is not cleared, so the members of the object behind a successful
    allocation need not be zero.  Here the block holds port 170, bit 85
    and direction output. *)
Lemma allocator_zeroed_counterexample :
  malloc (Some stale_block) (dynamic_init (mock_hal false)) =
    Some (Some 0%nat, mk_state [stale_block] (mock_hal false)) /\
  mem (mk_state [stale_block] (mock_hal false)) !! 0%nat = Some stale_block /\
  port stale_block = 170%Z /\
  ~ zeroed stale_block.
Proof.
  repeat split. intros (Hp & _). discriminate Hp.
Qed.

(** C7 (allocator contract), amended.  Static build: in every state a
    well-behaved client can reach, [allocateInstance] returns; a non-NULL
    result is the address of a slot below [N] whose port, bit and output
    are zero and whose [used] flag is now set, and a NULL result leaves
    the state unchanged and means that every slot is in use.  Dynamic
    build: a refused [malloc] gives NULL and changes nothing; a successful
    one gives the address of a new object holding whatever the block
    held, and [gpioCreate] then assigns port, bit and output, all
    three. *)
Theorem allocator_contract :
  (forall N h0 st,
      reachable N h0 st ->
      exists h st',
        allocateInstance N st = Some (h, st') /\
        match h with
        | Some a =>
            (a < N)%nat /\
            mem st' !! a = Some (mk_gpio 0%Z 0%Z false true)
        | None => st' = st /\ exhausted N st
        end) /\
  (forall st : state unit, malloc None st = Some (NULL, st)) /\
  (forall junk (st : state unit),
      malloc (Some junk) st =
        Some (Some (length (mem st)), mk_state (mem st ++ [junk]) (hal st))) /\
  (forall junk p b (st : state unit),
      gpioCreate_dynamic (Some junk) p b st =
        Some (Some (length (mem st)),
              mk_state (mem st ++ [mk_gpio (to_uint8 p) (to_uint8 b) false tt])
                (hal st))).
Proof.
  split; [|split; [|split]].
  - intros N h0 st Hreach.
    destruct (reachable_inv N h0 st Hreach) as [Hlen Hzero].
    destruct (allocateInstance_total N st Hlen) as (h & st' & Ha).
    exists h, st'. split; [exact Ha|].
    apply allocate_loop_spec in Ha. destruct h as [a|].
    + destruct Ha as (Hr & (s & Hs & Hu & ->) & _). split; [lia|].
      proj_c. rewrite (insert_lookup_same _ _ _ _ Hs).
      rewrite (Hzero a s Hs Hu). reflexivity.
    + destruct Ha as (-> & Hall). split; [reflexivity|].
      split; [rewrite flags_length; exact Hlen|].
      intros j Hj. destruct (Hall j ltac:(lia)) as (s & Hs & Hu).
      rewrite (flags_lookup _ _ _ Hs), Hu. reflexivity.
  - reflexivity.
  - reflexivity.
  - intros junk p b st. apply gpioCreate_dynamic_some.
Qed.

(** C8 (port and bit are immutable).  In both builds, after [gpioCreate]
    has returned the handle [a] for [(p, b)] and the client has made any
    further calls, the object behind [a] still has the port and bit that
    [gpioCreate] stored.  [gpioGetState] and [gpioSetState] change no
    member of any object, and [gpioSetOutput] changes no port and no
    bit. *)
Theorem port_bit_immutable :
  (forall N p b st a st1 prog vs st2,
      gpioCreate_static N p b st = Some (Some a, st1) ->
      run_static N prog st1 = Some (vs, st2) ->
      exists s, mem st2 !! a = Some s /\
        port s = to_uint8 p /\ bit s = to_uint8 b) /\
  (forall answer p b st a st1 prog vs st2,
      gpioCreate_dynamic answer p b st = Some (Some a, st1) ->
      run_dynamic prog st1 = Some (vs, st2) ->
      exists s, mem st2 !! a = Some s /\
        port s = to_uint8 p /\ bit s = to_uint8 b) /\
  (forall U (st : state U) self r st',
      gpioGetState self st = Some (r, st') -> mem st' = mem st) /\
  (forall U (st : state U) self v r st',
      gpioSetState self v st = Some (r, st') -> mem st' = mem st) /\
  (forall U (st : state U) self v r st' j s,
      gpioSetOutput self v st = Some (r, st') ->
      mem st !! j = Some s ->
      exists s', mem st' !! j = Some s' /\
        port s' = port s /\ bit s' = bit s /\ used s' = used s).
Proof.
  split; [|split; [|split; [|split]]].
  - intros N p b st a st1 prog vs st2 Hc Hr.
    destruct (static_handle_tracks _ _ _ _ _ _ _ _ _ Hc Hr)
      as (s & Hs & Hp & Hb & _).
    exists s. repeat split; assumption.
  - intros answer p b st a st1 prog vs st2 Hc Hr.
    destruct (dynamic_handle_tracks _ _ _ _ _ _ _ _ _ Hc Hr)
      as (s & Hs & Hp & Hb & _).
    exists s. repeat split; assumption.
  - intros U st self r st' H.
    destruct (gpioGetState_defined _ _ _ H) as (a & s & -> & Hs).
    rewrite (gpioGetState_eq _ _ _ Hs) in H. injection H as _ <-. reflexivity.
  - intros U st self v r st' H.
    destruct (gpioSetState_defined _ _ _ _ H) as (a & s & -> & Hs).
    rewrite (gpioSetState_eq _ _ _ _ Hs) in H. injection H as _ <-.
    destruct (output s); reflexivity.
  - intros U st self v r st' j s H Hj.
    destruct (gpioSetOutput_defined _ _ _ _ H) as (a & s0 & -> & Hs0).
    rewrite (gpioSetOutput_eq _ _ _ _ Hs0) in H. injection H as _ <-. proj_c.
    destruct (decide (j = a)) as [->|Hne].
    + rewrite Hs0 in Hj. injection Hj as ->.
      rewrite (insert_lookup_same _ _ _ _ Hs0).
      exists (with_output s v). repeat split.
    + rewrite list_lookup_insert_ne by congruence. exists s. repeat split. exact Hj.
Qed.

(** C9 (totality of the accessors).  Given a handle that designates an
    object, [gpioSetOutput] and [gpioSetState] with any boolean, and
    [gpioGetState], return normally; their only results are [tt], [tt]
    and a boolean.  NULL is outside this: an accessor applied to it
    dereferences a pointer to no object. *)
Theorem accessors_total U (st : state U) a s :
  mem st !! a = Some s ->
  (forall v, exists st', gpioSetOutput (Some a) v st = Some (tt, st')) /\
  (forall v, exists st', gpioSetState (Some a) v st = Some (tt, st')) /\
  (exists r st', gpioGetState (Some a) st = Some (r, st')) /\
  (forall v, gpioSetOutput NULL v st = None) /\
  (forall v, gpioSetState NULL v st = None) /\
  gpioGetState NULL st = None.
Proof.
  intros Hs. repeat split.
  - intros v. rewrite (gpioSetOutput_eq _ _ _ _ Hs). eauto.
  - intros v. rewrite (gpioSetState_eq _ _ _ _ Hs). eauto.
  - rewrite (gpioGetState_eq _ _ _ Hs). eauto.
Qed.

(** C10 (creation is silent).  In both builds [gpioCreate] leaves the HAL
    exactly as it found it, whether it returns a handle or NULL: it makes
    none of the three HAL calls.  It returns in the dynamic build always,
    and in the static build whenever the array has its [N] slots. *)
Theorem creation_silent :
  (forall N p b st h st',
      gpioCreate_static N p b st = Some (h, st') -> hal st' = hal st) /\
  (forall N p b st,
      length (mem st) = N ->
      exists h st', gpioCreate_static N p b st = Some (h, st') /\
                    hal st' = hal st) /\
  (forall answer p b st,
      exists h st', gpioCreate_dynamic answer p b st = Some (h, st') /\
                    hal st' = hal st).
Proof.
  assert (Hs : forall N p b st h st',
             gpioCreate_static N p b st = Some (h, st') -> hal st' = hal st).
  { intros N p b st h st' Hc.
    exact (proj1 (gpioCreate_frame (fun _ : unit => allocateInstance N)
                    (fun u => u = true) (allocateInstance_frame N)
                    tt p b st h st' Hc)). }
  split; [exact Hs|]. split.
  - intros N p b st Hlen.
    destruct (gpioCreate_static_total N p b st Hlen) as (h & st' & Hc).
    exists h, st'. split; [exact Hc|exact (Hs _ _ _ _ _ _ Hc)].
  - intros [junk|] p b st.
    + rewrite gpioCreate_dynamic_some. eauto.
    + rewrite gpioCreate_dynamic_none. eauto.
Qed.

(* ===================================================================== *)
(** ** The properties at concrete inputs *)
(* ===================================================================== *)

(** Pin (1, 0) is created in the static build with three slots, made an
    output and driven high; pin (2, 5) is created on a stale block in the
    dynamic build, read, and driven while still an input. *)
Lemma direction_gating_witness :
  gpioSetState (Some 0%nat) true
    (mk_state [mk_gpio 1 0 true true; mk_gpio 0 0 false false;
               mk_gpio 0 0 false false]
       (mk_hal [set_direction 1 0 true] (fun _ _ _ => false))) =
    Some (tt,
          mk_state [mk_gpio 1 0 true true; mk_gpio 0 0 false false;
                    mk_gpio 0 0 false false]
            (mk_hal [set_direction 1 0 true; set_output 1 0 true]
               (fun _ _ _ => false))) /\
  gpioSetState (Some 0%nat) true
    (mk_state [mk_gpio 2 5 false tt]
       (mk_hal [get_input 2 5] (fun _ _ _ => true))) =
    Some (tt,
          mk_state [mk_gpio 2 5 false tt]
            (mk_hal [get_input 2 5] (fun _ _ _ => true))).
Proof.
  split.
  - assert (Hc : gpioCreate_static 3 1 0 (static_init 3 (mock_hal false)) =
                 Some (Some 0%nat,
                       mk_state [mk_gpio 1 0 false true; mk_gpio 0 0 false false;
                                 mk_gpio 0 0 false false] (mock_hal false)))
      by (vm_compute; reflexivity).
    assert (Hr : run_static 3 [SetOutput (Some 0%nat) true]
                   (mk_state [mk_gpio 1 0 false true; mk_gpio 0 0 false false;
                              mk_gpio 0 0 false false] (mock_hal false)) =
                 Some ([Void],
                       mk_state [mk_gpio 1 0 true true; mk_gpio 0 0 false false;
                                 mk_gpio 0 0 false false]
                         (mk_hal [set_direction 1 0 true] (fun _ _ _ => false))))
      by (vm_compute; reflexivity).
    exact (proj1 direction_gating _ _ _ _ _ _ _ _ _ true Hc Hr).
  - assert (Hc : gpioCreate_dynamic (Some stale_block) 2 5
                   (dynamic_init (mock_hal true)) =
                 Some (Some 0%nat, mk_state [mk_gpio 2 5 false tt] (mock_hal true)))
      by (vm_compute; reflexivity).
    assert (Hr : run_dynamic [GetState (Some 0%nat)]
                   (mk_state [mk_gpio 2 5 false tt] (mock_hal true)) =
                 Some ([Level true],
                       mk_state [mk_gpio 2 5 false tt]
                         (mk_hal [get_input 2 5] (fun _ _ _ => true))))
      by (vm_compute; reflexivity).
    exact (proj1 (proj2 direction_gating) _ _ _ _ _ _ _ _ _ true Hc Hr).
Defined.

(** With the default capacity, a client that creates eleven pins and
    configures the first one in between gets slots 0 to 9 and then NULL. *)
Lemma exhaustion_bound_witness :
  exists vs st',
    run_static GPIO_MAX_INSTANCES_default
      (Create tt 0 0 :: SetOutput (Some 0%nat) true ::
       creates [(0, 1); (0, 2); (0, 3); (0, 4); (0, 5); (0, 6); (0, 7);
                (0, 8); (0, 9); (0, 10)]%Z)
      (static_init GPIO_MAX_INSTANCES_default (mock_hal false)) = Some (vs, st') /\
    handles vs =
      [Some 0; Some 1; Some 2; Some 3; Some 4; Some 5; Some 6; Some 7;
       Some 8; Some 9; NULL]%nat.
Proof.
  destruct (run_static GPIO_MAX_INSTANCES_default
              (Create tt 0 0 :: SetOutput (Some 0%nat) true ::
               creates [(0, 1); (0, 2); (0, 3); (0, 4); (0, 5); (0, 6); (0, 7);
                        (0, 8); (0, 9); (0, 10)]%Z)
              (static_init GPIO_MAX_INSTANCES_default (mock_hal false)))
    as [[vs st']|] eqn:Hr.
  - exists vs, st'. split; [reflexivity|].
    exact (proj1 (proj2 (proj2 (proj2 exhaustion_bound))) _ _ _ _ _ Hr).
  - vm_compute in Hr. discriminate Hr.
Defined.

(** With three slots of which the first is in use, a creation claims
    slot 1; and the handles of four creations come out in increasing
    order. *)
Lemma allocation_order_witness :
  (flags (mk_state [mk_gpio 0 0 false true; mk_gpio 0 0 false false;
                    mk_gpio 0 0 false false] (mock_hal false)) !! 1%nat
     = Some false /\
   (forall j, (j < 1)%nat ->
      flags (mk_state [mk_gpio 0 0 false true; mk_gpio 0 0 false false;
                       mk_gpio 0 0 false false] (mock_hal false)) !! j
        = Some true) /\
   flags (mk_state [mk_gpio 0 0 false true; mk_gpio 0 1 false true;
                    mk_gpio 0 0 false false] (mock_hal false)) =
     <[1%nat := true]>
       (flags (mk_state [mk_gpio 0 0 false true; mk_gpio 0 0 false false;
                         mk_gpio 0 0 false false] (mock_hal false)))) /\
  (StronglySorted lt
     (addresses [Some 0%nat; Some 1%nat; Some 2%nat; NULL]) /\
   NoDup (addresses [Some 0%nat; Some 1%nat; Some 2%nat; NULL])).
Proof.
  split.
  - assert (Hc : gpioCreate_static 3 0 1
                   (mk_state [mk_gpio 0 0 false true; mk_gpio 0 0 false false;
                              mk_gpio 0 0 false false] (mock_hal false)) =
                 Some (Some 1%nat,
                       mk_state [mk_gpio 0 0 false true; mk_gpio 0 1 false true;
                                 mk_gpio 0 0 false false] (mock_hal false)))
      by (vm_compute; reflexivity).
    exact (proj1 allocation_order _ _ _ _ _ _ Hc).
  - assert (Hr : run_static 3 (creates [(0, 0); (0, 1); (0, 2); (0, 3)]%Z)
                   (static_init 3 (mock_hal false)) =
                 Some ([Handle (Some 0%nat); Handle (Some 1%nat);
                        Handle (Some 2%nat); Handle NULL],
                       mk_state [mk_gpio 0 0 false true; mk_gpio 0 1 false true;
                                 mk_gpio 0 2 false true] (mock_hal false)))
      by (vm_compute; reflexivity).
    exact (proj1 (proj2 allocation_order) _ _ _ _ _ Hr).
Defined.

(** Pin (3, 7), freshly created in either build, is an input and a write
    to it reaches no HAL primitive. *)
Lemma initial_direction_input_witness :
  ((exists s,
      mem (mk_state [mk_gpio 3 7 false true; mk_gpio 0 0 false false]
             (mock_hal false)) !! 0%nat = Some s /\ output s = false) /\
   forall v,
     gpioSetState (Some 0%nat) v
       (mk_state [mk_gpio 3 7 false true; mk_gpio 0 0 false false]
          (mock_hal false)) =
     Some (tt, mk_state [mk_gpio 3 7 false true; mk_gpio 0 0 false false]
                 (mock_hal false))) /\
  ((exists s,
      mem (mk_state [mk_gpio 3 7 false tt] (mock_hal false)) !! 0%nat = Some s /\
      output s = false) /\
   forall v,
     gpioSetState (Some 0%nat) v (mk_state [mk_gpio 3 7 false tt] (mock_hal false)) =
     Some (tt, mk_state [mk_gpio 3 7 false tt] (mock_hal false))).
Proof.
  split.
  - assert (Hc : gpioCreate_static 2 3 7 (static_init 2 (mock_hal false)) =
                 Some (Some 0%nat,
                       mk_state [mk_gpio 3 7 false true; mk_gpio 0 0 false false]
                         (mock_hal false)))
      by (vm_compute; reflexivity).
    exact (proj1 initial_direction_input _ _ _ _ _ _ Hc).
  - assert (Hc : gpioCreate_dynamic (Some stale_block) 3 7
                   (dynamic_init (mock_hal false)) =
                 Some (Some 0%nat, mk_state [mk_gpio 3 7 false tt] (mock_hal false)))
      by (vm_compute; reflexivity).
    exact (proj2 initial_direction_input _ _ _ _ _ _ Hc).
Defined.

(** An output pin (1, 0) is configured as output once more. *)
Lemma set_output_forwarding_witness :
  exists st',
    gpioSetOutput (Some 0%nat) true
      (mk_state [mk_gpio 1 0 true tt] (mock_hal false)) = Some (tt, st') /\
    mem st' = <[0%nat := with_output (mk_gpio 1 0 true tt) true]>
                [mk_gpio 1 0 true tt] /\
    mem st' !! 0%nat = Some (mk_gpio 1 0 true tt) /\
    hal_calls (hal st') = [] ++ [set_direction 1 0 true] /\
    hal_level (hal st') = hal_level (mock_hal false).
Proof.
  exact (set_output_forwarding unit
           (mk_state [mk_gpio 1 0 true tt] (mock_hal false)) 0%nat
           (mk_gpio 1 0 true tt) true eq_refl).
Defined.

(** Reading pin (2, 5) while it is configured as an output. *)
Lemma get_state_forwarding_witness :
  gpioGetState (Some 0%nat) (mk_state [mk_gpio 2 5 true tt] (mock_hal true)) =
  Some (true,
        mk_state [mk_gpio 2 5 true tt]
          (mk_hal ([] ++ [get_input 2 5]) (hal_level (mock_hal true)))).
Proof.
  exact (get_state_forwarding unit
           (mk_state [mk_gpio 2 5 true tt] (mock_hal true)) 0%nat
           (mk_gpio 2 5 true tt) eq_refl).
Defined.

(** After pin (4, 2) has been created and made an output, the allocator
    returns, and hands out a zeroed slot or reports exhaustion. *)
Lemma allocator_contract_witness :
  exists h st',
    allocateInstance 2
      (mk_state [mk_gpio 4 2 true true; mk_gpio 0 0 false false]
         (mk_hal [set_direction 4 2 true] (fun _ _ _ => false))) = Some (h, st') /\
    match h with
    | Some a => (a < 2)%nat /\ mem st' !! a = Some (mk_gpio 0%Z 0%Z false true)
    | None =>
        st' = mk_state [mk_gpio 4 2 true true; mk_gpio 0 0 false false]
                (mk_hal [set_direction 4 2 true] (fun _ _ _ => false)) /\
        exhausted 2
          (mk_state [mk_gpio 4 2 true true; mk_gpio 0 0 false false]
             (mk_hal [set_direction 4 2 true] (fun _ _ _ => false)))
    end.
Proof.
  assert (H1 : exec (fun _ : unit => allocateInstance 2) (Create tt 4 2)
                 (static_init 2 (mock_hal false)) =
               Some (Handle (Some 0%nat),
                     mk_state [mk_gpio 4 2 false true; mk_gpio 0 0 false false]
                       (mock_hal false)))
    by (vm_compute; reflexivity).
  assert (H2 : exec (fun _ : unit => allocateInstance 2)
                 (SetOutput (Some 0%nat) true)
                 (mk_state [mk_gpio 4 2 false true; mk_gpio 0 0 false false]
                    (mock_hal false)) =
               Some (Void,
                     mk_state [mk_gpio 4 2 true true; mk_gpio 0 0 false false]
                       (mk_hal [set_direction 4 2 true] (fun _ _ _ => false))))
    by (vm_compute; reflexivity).
  exact (proj1 allocator_contract 2%nat (mock_hal false) _
           (reach_call 2 (mock_hal false) _ (SetOutput (Some 0%nat) true) _ _
              (reach_call 2 (mock_hal false) _ (Create tt 4 2) _ _
                 (reach_init 2 (mock_hal false)) I H1)
              (ex_intro _ 0%nat
                 (ex_intro _ (mk_gpio 4 2 false true)
                    (conj eq_refl (conj eq_refl eq_refl))))
              H2)).
Defined.

(** Pin (1, 0) keeps its port and bit through a change of direction, a
    write and a read, in both builds. *)
Lemma port_bit_immutable_witness :
  (exists s,
     mem (mk_state [mk_gpio 1 0 true true; mk_gpio 0 0 false false]
            (mk_hal [set_direction 1 0 true; set_output 1 0 true; get_input 1 0]
               (fun _ _ _ => false))) !! 0%nat = Some s /\
     port s = to_uint8 1 /\ bit s = to_uint8 0) /\
  (exists s,
     mem (mk_state [mk_gpio 1 0 true tt]
            (mk_hal [set_direction 1 0 true; set_output 1 0 true; get_input 1 0]
               (fun _ _ _ => false))) !! 0%nat = Some s /\
     port s = to_uint8 1 /\ bit s = to_uint8 0).
Proof.
  split.
  - assert (Hc : gpioCreate_static 2 1 0 (static_init 2 (mock_hal false)) =
                 Some (Some 0%nat,
                       mk_state [mk_gpio 1 0 false true; mk_gpio 0 0 false false]
                         (mock_hal false)))
      by (vm_compute; reflexivity).
    assert (Hr : run_static 2
                   [SetOutput (Some 0%nat) true; SetState (Some 0%nat) true;
                    GetState (Some 0%nat)]
                   (mk_state [mk_gpio 1 0 false true; mk_gpio 0 0 false false]
                      (mock_hal false)) =
                 Some ([Void; Void; Level false],
                       mk_state [mk_gpio 1 0 true true; mk_gpio 0 0 false false]
                         (mk_hal [set_direction 1 0 true; set_output 1 0 true;
                                  get_input 1 0] (fun _ _ _ => false))))
      by (vm_compute; reflexivity).
    exact (proj1 port_bit_immutable _ _ _ _ _ _ _ _ _ Hc Hr).
  - assert (Hc : gpioCreate_dynamic (Some stale_block) 1 0
                   (dynamic_init (mock_hal false)) =
                 Some (Some 0%nat, mk_state [mk_gpio 1 0 false tt] (mock_hal false)))
      by (vm_compute; reflexivity).
    assert (Hr : run_dynamic
                   [SetOutput (Some 0%nat) true; SetState (Some 0%nat) true;
                    GetState (Some 0%nat)]
                   (mk_state [mk_gpio 1 0 false tt] (mock_hal false)) =
                 Some ([Void; Void; Level false],
                       mk_state [mk_gpio 1 0 true tt]
                         (mk_hal [set_direction 1 0 true; set_output 1 0 true;
                                  get_input 1 0] (fun _ _ _ => false))))
      by (vm_compute; reflexivity).
    exact (proj1 (proj2 port_bit_immutable) _ _ _ _ _ _ _ _ _ Hc Hr).
Defined.

(** The accessors on the input pin (3, 7). *)
Lemma accessors_total_witness :
  (forall v, exists st',
     gpioSetOutput (Some 0%nat) v (mk_state [mk_gpio 3 7 false tt] (mock_hal true))
       = Some (tt, st')) /\
  (forall v, exists st',
     gpioSetState (Some 0%nat) v (mk_state [mk_gpio 3 7 false tt] (mock_hal true))
       = Some (tt, st')) /\
  (exists r st',
     gpioGetState (Some 0%nat) (mk_state [mk_gpio 3 7 false tt] (mock_hal true))
       = Some (r, st')) /\
  (forall v,
     gpioSetOutput NULL v (mk_state [mk_gpio 3 7 false tt] (mock_hal true)) = None) /\
  (forall v,
     gpioSetState NULL v (mk_state [mk_gpio 3 7 false tt] (mock_hal true)) = None) /\
  gpioGetState NULL (mk_state [mk_gpio 3 7 false tt] (mock_hal true)) = None.
Proof.
  exact (accessors_total unit (mk_state [mk_gpio 3 7 false tt] (mock_hal true))
           0%nat (mk_gpio 3 7 false tt) eq_refl).
Defined.

(** Creating a pin on an exhausted one-slot pool, after a HAL call. *)
Lemma creation_silent_witness :
  hal (mk_state [mk_gpio 0 0 true true]
         (mk_hal [set_direction 0 0 true] (fun _ _ _ => false))) =
    mk_hal [set_direction 0 0 true] (fun _ _ _ => false) /\
  exists h st',
    gpioCreate_static 1 0 1
      (mk_state [mk_gpio 0 0 true true]
         (mk_hal [set_direction 0 0 true] (fun _ _ _ => false))) = Some (h, st') /\
    hal st' = mk_hal [set_direction 0 0 true] (fun _ _ _ => false).
Proof.
  split.
  - assert (Hc : gpioCreate_static 1 0 1
                   (mk_state [mk_gpio 0 0 true true]
                      (mk_hal [set_direction 0 0 true] (fun _ _ _ => false))) =
                 Some (NULL,
                       mk_state [mk_gpio 0 0 true true]
                         (mk_hal [set_direction 0 0 true] (fun _ _ _ => false))))
      by (vm_compute; reflexivity).
    exact (proj1 creation_silent _ _ _ _ _ _ Hc).
  - exact (proj1 (proj2 creation_silent) 1%nat 0%Z 1%Z
             (mk_state [mk_gpio 0 0 true true]
                (mk_hal [set_direction 0 0 true] (fun _ _ _ => false)))
             eq_refl).
Defined.

(* ===================================================================== *)
(** ** Further properties of the allocator and the accessors *)
(* ===================================================================== *)

(** What one accessor call does, read off its definition. *)
Lemma exec_accessor_inv {U E} (allocate : E -> M U gpio_t) c
    (st : state U) v st' :
  exec allocate c st = Some (v, st') ->
  match c with
  | Create _ _ _ => True
  | SetOutput self o =>
      exists a s, self = Some a /\ mem st !! a = Some s /\ v = Void /\
        st' = mk_state (<[a := with_output s o]> (mem st))
                (record_call (set_direction (port s) (bit s) o) (hal st))
  | SetState self o =>
      exists a s, self = Some a /\ mem st !! a = Some s /\ v = Void /\
        st' = if output s
              then mk_state (mem st)
                     (record_call (set_output (port s) (bit s) o) (hal st))
              else st
  | GetState self =>
      exists a s, self = Some a /\ mem st !! a = Some s /\
        v = Level (hal_level (hal st) (hal_calls (hal st)) (port s) (bit s)) /\
        st' = mk_state (mem st)
                (record_call (get_input (port s) (bit s)) (hal st))
  end.
Proof.
  intros H. destruct c as [e p b|self o|self o|self]; [exact I| | |];
    unfold exec, bind, ret in H.
  - destruct (gpioSetOutput self o st) as [[[] st1]|] eqn:E1; [|discriminate].
    injection H as <- <-.
    destruct (gpioSetOutput_defined _ _ _ _ E1) as (a & s & -> & Hs).
    rewrite (gpioSetOutput_eq _ _ _ _ Hs) in E1. injection E1 as <-.
    exists a, s. repeat split. exact Hs.
  - destruct (gpioSetState self o st) as [[[] st1]|] eqn:E1; [|discriminate].
    injection H as <- <-.
    destruct (gpioSetState_defined _ _ _ _ E1) as (a & s & -> & Hs).
    rewrite (gpioSetState_eq _ _ _ _ Hs) in E1. injection E1 as <-.
    exists a, s. repeat split. exact Hs.
  - destruct (gpioGetState self st) as [[r st1]|] eqn:E1; [|discriminate].
    injection H as <- <-.
    destruct (gpioGetState_defined _ _ _ E1) as (a & s & -> & Hs).
    rewrite (gpioGetState_eq _ _ _ Hs) in E1. injection E1 as <- <-.
    exists a, s. repeat split. exact Hs.
Qed.

(** The HAL record only grows, by at most one call per accessor call. *)
Section HalLogFacts.
Context {U E : Type}.
Variable allocate : E -> M U gpio_t.
Hypothesis allocate_silent : forall e st h st',
  allocate e st = Some (h, st') -> hal st' = hal st.

Lemma exec_hal_log c (st : state U) v st' :
  exec allocate c st = Some (v, st') ->
  exists new,
    hal_calls (hal st') = hal_calls (hal st) ++ new /\
    (length new + count_creates [c] <= 1)%nat /\
    hal_level (hal st') = hal_level (hal st).
Proof.
  intros H. pose proof (exec_accessor_inv _ _ _ _ _ H) as Hinv.
  destruct c as [e p b|self o|self o|self].
  - unfold exec, bind, ret in H.
    destruct (gpioCreate (allocate e) p b st) as [[h st1]|] eqn:Hc; [|discriminate].
    injection H as _ <-. apply gpioCreate_inv in Hc as (st0 & Ha & Hh).
    apply allocate_silent in Ha. exists []. rewrite app_nil_r.
    destruct h as [a|].
    + destruct Hh as (s & _ & ->). proj_c. rewrite Ha. repeat split. simpl. lia.
    + subst st1. rewrite Ha. repeat split. simpl. lia.
  - destruct Hinv as (a & s & _ & _ & _ & ->). eexists [_].
    repeat split. simpl. lia.
  - destruct Hinv as (a & s & _ & _ & _ & ->). destruct (output s).
    + eexists [_]. repeat split. simpl. lia.
    + exists []. rewrite app_nil_r. repeat split. simpl. lia.
  - destruct Hinv as (a & s & _ & _ & _ & ->). eexists [_].
    repeat split. simpl. lia.
Qed.

Lemma run_hal_log prog : forall (st : state U) vs st',
  run allocate prog st = Some (vs, st') ->
  exists new,
    hal_calls (hal st') = hal_calls (hal st) ++ new /\
    (length new + count_creates prog <= length prog)%nat /\
    hal_level (hal st') = hal_level (hal st).
Proof.
  induction prog as [|c prog IH]; intros st vs st' H.
  - injection H as _ <-. exists []. rewrite app_nil_r. repeat split. simpl. lia.
  - apply run_cons in H as (v & st1 & vs' & Hc & Hr & ->).
    destruct (exec_hal_log _ _ _ _ Hc) as (n1 & H1 & Hl1 & Hv1).
    destruct (IH _ _ _ Hr) as (n2 & H2 & Hl2 & Hv2).
    exists (n1 ++ n2). rewrite H2, H1, Hv2, Hv1, app_assoc, length_app.
    repeat split. simpl in *. destruct c; simpl in *; lia.
Qed.
End HalLogFacts.

(** Slots of the static array along a run. *)
Section StaticSlotFacts.
Variable N : nat.
Implicit Types (st : state bool) (s : gpio_s bool) (a j k : nat).

Lemma count_true_insert (l : list bool) : forall a,
  l !! a = Some false ->
  length (filter (fun u : bool => u = true) (<[a := true]> l)) =
  S (length (filter (fun u : bool => u = true) l)).
Proof.
  induction l as [|x l IH]; intros [|a] H; try discriminate.
  - injection H as ->. change (<[0%nat := true]> (false :: l)) with (true :: l).
    rewrite (filter_cons_True _ true) by reflexivity.
    rewrite (filter_cons_False _ false) by discriminate. reflexivity.
  - simpl in H. change (<[S a := true]> (x :: l)) with (x :: <[a := true]> l).
    destruct x.
    + rewrite !filter_cons_True by reflexivity. simpl. rewrite (IH a H). reflexivity.
    + rewrite !filter_cons_False by discriminate. exact (IH a H).
Qed.

(** One call: the array keeps its length, a used slot stays used, and the
    number of used slots grows by one exactly when a handle is returned. *)
Lemma exec_slots c st v st' :
  exec (fun _ : unit => allocateInstance N) c st = Some (v, st') ->
  length (flags st') = length (flags st) /\
  (forall j, flags st !! j = Some true -> flags st' !! j = Some true) /\
  used_count st' = (used_count st + length (addresses (handles [v])))%nat.
Proof.
  intros H. destruct c as [e p b|self o|self o|self].
  { apply exec_create_inv in H as (h & -> & Hc). apply create_flags in Hc.
    destruct h as [a|]; simpl.
    - destruct Hc as (_ & Hfree & _ & Hst). unfold used_count. rewrite Hst.
      split; [apply length_insert|]. split.
      + intros j Hj. destruct (decide (j = a)) as [->|Hne]; [congruence|].
        rewrite list_lookup_insert_ne by congruence. exact Hj.
      + rewrite (count_true_insert _ _ Hfree). lia.
    - destruct Hc as [-> _]. split; [reflexivity|]. split; [auto|lia]. }
  all: (destruct (accessor_flags N _ _ _ _ H I) as [Hf Hv];
    unfold used_count; rewrite Hf;
    destruct v; try discriminate Hv; simpl;
    (split; [reflexivity|split; [auto|lia]])).
Qed.

Lemma run_slots prog : forall st vs st',
  run_static N prog st = Some (vs, st') ->
  length (flags st') = length (flags st) /\
  (forall j, flags st !! j = Some true -> flags st' !! j = Some true) /\
  used_count st' = (used_count st + length (addresses (handles vs)))%nat.
Proof.
  induction prog as [|c prog IH]; intros st vs st' H.
  - injection H as <- <-. simpl. split; [reflexivity|]. split; [auto|lia].
  - apply run_cons in H as (v & st1 & vs' & Hc & Hr & ->).
    destruct (exec_slots _ _ _ _ Hc) as (Hl1 & Hm1 & Hc1).
    destruct (IH _ _ _ Hr) as (Hl2 & Hm2 & Hc2).
    split; [congruence|]. split; [intros j Hj; apply Hm2, Hm1, Hj|].
    rewrite Hc2, Hc1. destruct v as [[a|]| |]; simpl; lia.
Qed.

(** The used slots of a reachable state are an initial segment. *)
Lemma first_used_replicate k st :
  first_used N k st ->
  flags st = replicate (k `min` N) true ++ replicate (N - k) false.
Proof.
  intros [Hlen Hfl]. apply (list_eq_same_length _ _ N).
  - rewrite length_app, !length_replicate. lia.
  - exact Hlen.
  - intros i x y Hi Hx Hy. rewrite (Hfl _ _ Hx).
    destruct (decide (i < k)%nat) as [Hlt|Hge].
    + rewrite lookup_app_l in Hy by (rewrite length_replicate; lia).
      apply lookup_replicate in Hy as [-> _].
      apply bool_decide_eq_true_2, Hlt.
    + rewrite lookup_app_r in Hy by (rewrite length_replicate; lia).
      apply lookup_replicate in Hy as [-> _].
      apply bool_decide_eq_false_2, Hge.
Qed.

Lemma reachable_first_used h0 st :
  reachable N h0 st -> exists k, first_used N k st.
Proof.
  induction 1 as [|st c v st' Hreach [k Hk] Hown Hc].
  - exists 0%nat. apply first_used_init.
  - destruct c as [e p b|self o|self o|self].
    { apply exec_create_inv in Hc as (h & _ & Hc).
      exists (S k). exact (proj2 (first_used_create N _ _ _ _ _ _ Hk Hc)). }
    all: (destruct (accessor_flags N _ _ _ _ Hc I) as [Hf _];
      exists k; unfold first_used; rewrite Hf; exact Hk).
Qed.
End StaticSlotFacts.

(** The HAL calls of a well-behaved client of the static build. *)
Section LivePinFacts.
Variable N : nat.
Implicit Types (st : state bool) (s : gpio_s bool) (a j k : nat).

Lemma on_live_pin_mono st st' c :
  (forall a s, mem st !! a = Some s -> used s = true ->
     exists s', mem st' !! a = Some s' /\ used s' = true /\
       port s' = port s /\ bit s' = bit s) ->
  on_live_pin st c -> on_live_pin st' c.
Proof.
  intros Hkeep (a & s & Hs & Hu & Hp).
  destruct (Hkeep a s Hs Hu) as (s' & Hs' & Hu' & Hport & Hbit).
  exists a, s'. rewrite Hport, Hbit. repeat split; assumption.
Qed.

Lemma insert_output_keeps st a s o h :
  mem st !! a = Some s ->
  forall a0 s0, mem st !! a0 = Some s0 -> used s0 = true ->
    exists s', mem (mk_state (<[a := with_output s o]> (mem st)) h) !! a0 = Some s' /\
      used s' = true /\ port s' = port s0 /\ bit s' = bit s0.
Proof.
  intros Hs a0 s0 Hs0 Hu0. proj_c. destruct (decide (a0 = a)) as [->|Hne].
  - rewrite Hs in Hs0. injection Hs0 as ->.
    rewrite (insert_lookup_same _ _ _ _ Hs). exists (with_output s0 o).
    repeat split. exact Hu0.
  - rewrite list_lookup_insert_ne by congruence. exists s0.
    repeat split; assumption.
Qed.

Lemma reachable_live_pins h0 st :
  reachable N h0 st ->
  exists new,
    hal_calls (hal st) = hal_calls h0 ++ new /\
    Forall (on_live_pin st) new.
Proof.
  induction 1 as [|st c v st' Hreach (new & Hlog & Hlive) Hown Hc].
  - exists []. rewrite app_nil_r. split; [reflexivity|constructor].
  - pose proof (exec_accessor_inv _ _ _ _ _ Hc) as Hinv.
    destruct c as [e p b|self o|self o|self].
    + unfold exec, bind, ret in Hc.
      destruct (gpioCreate (allocateInstance N) p b st) as [[h st1]|] eqn:Hg;
        [|discriminate].
      injection Hc as _ <-.
      destruct (gpioCreate_frame (fun _ : unit => allocateInstance N)
                  (fun u => u = true) (allocateInstance_frame N)
                  tt p b st h st1 Hg) as [Hhal Hfr].
      exists new. rewrite Hhal. split; [exact Hlog|].
      eapply Forall_impl; [exact Hlive|]. intros c. apply on_live_pin_mono.
      intros a s Hs Hu. exists s. destruct (Hfr a s Hs Hu) as [Hs' _].
      repeat split; assumption.
    + destruct Hown as (a & s & -> & Hs & Hu).
      destruct Hinv as (a' & s' & [= <-] & Hs' & _ & ->).
      rewrite Hs in Hs'. injection Hs' as <-.
      exists (new ++ [set_direction (port s) (bit s) o]). proj_c. simpl.
      rewrite Hlog, app_assoc. split; [reflexivity|].
      apply Forall_app. split.
      * eapply Forall_impl; [exact Hlive|]. intros c.
        apply on_live_pin_mono, insert_output_keeps, Hs.
      * constructor; [|constructor].
        destruct (insert_output_keeps st a s o
                    (record_call (set_direction (port s) (bit s) o) (hal st))
                    Hs a s Hs Hu) as (s1 & Hs1 & Hu1 & Hp1 & Hb1).
        exists a, s1. rewrite Hp1, Hb1. repeat split; assumption.
    + destruct Hown as (a & s & -> & Hs & Hu).
      destruct Hinv as (a' & s' & [= <-] & Hs' & _ & ->).
      rewrite Hs in Hs'. injection Hs' as <-. destruct (output s).
      * exists (new ++ [set_output (port s) (bit s) o]). proj_c. simpl.
        rewrite Hlog, app_assoc. split; [reflexivity|].
        apply Forall_app. split; [exact Hlive|].
        constructor; [|constructor]. exists a, s. repeat split; assumption.
      * exists new. split; assumption.
    + destruct Hown as (a & s & -> & Hs & Hu).
      destruct Hinv as (a' & s' & [= <-] & Hs' & _ & ->).
      rewrite Hs in Hs'. injection Hs' as <-.
      exists (new ++ [get_input (port s) (bit s)]). proj_c. simpl.
      rewrite Hlog, app_assoc. split; [reflexivity|].
      apply Forall_app. split; [exact Hlive|].
      constructor; [|constructor]. exists a, s. repeat split; assumption.
Qed.
End LivePinFacts.

(** Handles of the dynamic build along a run. *)
Lemma run_dynamic_fresh prog : forall (st : state unit) vs st',
  run_dynamic prog st = Some (vs, st') ->
  length (mem st') = (length (mem st) + length (addresses (handles vs)))%nat /\
  Forall (fun a => (length (mem st) <= a)%nat) (addresses (handles vs)) /\
  NoDup (addresses (handles vs)) /\
  succeeded <$> handles vs = succeeded <$> answers prog.
Proof.
  induction prog as [|c prog IH]; intros st vs st' H.
  - injection H as <- <-. simpl. repeat split; [lia|constructor|constructor].
  - apply run_cons in H as (v & st1 & vs' & Hc & Hr & ->).
    destruct (IH _ _ _ Hr) as (Hlen & Hge & Hnd & Hsucc).
    pose proof (exec_accessor_inv _ _ _ _ _ Hc) as Hinv.
    destruct c as [e p b|self o|self o|self].
    + unfold exec, bind, ret in Hc.
      change (gpioCreate (malloc e) p b st) with (gpioCreate_dynamic e p b st) in Hc.
      destruct e as [junk|].
      * rewrite gpioCreate_dynamic_some in Hc. injection Hc as <- <-.
        proj_c in Hlen. proj_c in Hge. rewrite length_app in Hlen, Hge.
        simpl in Hlen, Hge. cbn [handles addresses answers length].
        rewrite !fmap_cons, Hsucc.
        split; [lia|]. split; [|split; [|reflexivity]].
        -- constructor; [lia|]. eapply Forall_impl; [exact Hge|].
           simpl. intros x Hx. lia.
        -- constructor; [|exact Hnd]. intros Hin.
           rewrite Forall_forall in Hge. specialize (Hge _ Hin). lia.
      * rewrite gpioCreate_dynamic_none in Hc. injection Hc as <- <-.
        cbn [handles addresses answers length].
        rewrite !fmap_cons, Hsucc. repeat split; assumption.
    + destruct Hinv as (a & s & _ & _ & -> & ->). proj_c in Hlen. proj_c in Hge.
      rewrite length_insert in Hlen, Hge. simpl. repeat split; assumption.
    + destruct Hinv as (a & s & _ & _ & -> & ->).
      assert (Hm : length (mem (if output s
                                then mk_state (mem st)
                                       (record_call (set_output (port s) (bit s) o) (hal st))
                                else st)) = length (mem st))
        by (destruct (output s); reflexivity).
      rewrite Hm in Hlen, Hge. simpl. repeat split; assumption.
    + destruct Hinv as (a & s & _ & _ & -> & ->). simpl. repeat split; assumption.
Qed.

(** X1 (slots are never released).  Along any run of a client of the
    static build the array keeps its length, a slot that is in use stays
    in use, and the number of slots in use grows by exactly the number of
    non-NULL handles the run's creations returned: no call of the file
    gives a slot back. *)
Theorem slots_never_released N prog st vs st' :
  run_static N prog st = Some (vs, st') ->
  length (flags st') = length (flags st) /\
  (forall j, flags st !! j = Some true -> flags st' !! j = Some true) /\
  used_count st' = (used_count st + length (addresses (handles vs)))%nat.
Proof. apply run_slots. Qed.

(** X2 (handles of the dynamic build).  Along any run of a client of the
    dynamic build, a creation returns NULL exactly when its [malloc] was
    refused, so a refusal does not stop later creations from succeeding;
    every non-NULL handle returned designates an object that did not exist
    before the run, the handles are pairwise distinct, and every object
    that existed or was created is still there at the end (nothing is
    freed). *)
Theorem dynamic_handles_fresh prog (st : state unit) vs st' :
  run_dynamic prog st = Some (vs, st') ->
  succeeded <$> handles vs = succeeded <$> answers prog /\
  (forall a, a ∈ addresses (handles vs) -> mem st !! a = None) /\
  NoDup (addresses (handles vs)) /\
  length (mem st') = (length (mem st) + length (addresses (handles vs)))%nat.
Proof.
  intros H. destruct (run_dynamic_fresh _ _ _ _ H) as (Hlen & Hge & Hnd & Hs).
  split; [exact Hs|]. split; [|split; assumption].
  intros a Ha. rewrite Forall_forall in Hge. apply lookup_ge_None_2, Hge, Ha.
Qed.

(** X3 (two handles on one pin).  [gpioCreate] does not look for an
    existing handle on the same port and bit: created twice for one pin,
    it returns two different handles, each with a direction of its own.
    After [gpioSetOutput] with [true] through the first handle the HAL has
    been told to make the pin an output, yet [gpioSetState] through the
    second handle is still ignored.  In both builds. *)
Theorem aliased_handles_independent :
  (forall N p b st a1 st1 a2 st2 st3 v,
      gpioCreate_static N p b st = Some (Some a1, st1) ->
      gpioCreate_static N p b st1 = Some (Some a2, st2) ->
      gpioSetOutput (Some a1) true st2 = Some (tt, st3) ->
      (a1 < a2)%nat /\
      hal_calls (hal st3) =
        hal_calls (hal st) ++ [set_direction (to_uint8 p) (to_uint8 b) true] /\
      mem st3 !! a1 = Some (mk_gpio (to_uint8 p) (to_uint8 b) true true) /\
      mem st3 !! a2 = Some (mk_gpio (to_uint8 p) (to_uint8 b) false true) /\
      gpioSetState (Some a2) v st3 = Some (tt, st3)) /\
  (forall j1 j2 p b st a1 st1 a2 st2 st3 v,
      gpioCreate_dynamic (Some j1) p b st = Some (Some a1, st1) ->
      gpioCreate_dynamic (Some j2) p b st1 = Some (Some a2, st2) ->
      gpioSetOutput (Some a1) true st2 = Some (tt, st3) ->
      a1 <> a2 /\
      hal_calls (hal st3) =
        hal_calls (hal st) ++ [set_direction (to_uint8 p) (to_uint8 b) true] /\
      mem st3 !! a1 = Some (mk_gpio (to_uint8 p) (to_uint8 b) true tt) /\
      mem st3 !! a2 = Some (mk_gpio (to_uint8 p) (to_uint8 b) false tt) /\
      gpioSetState (Some a2) v st3 = Some (tt, st3)).
Proof.
  split.
  - intros N p b st a1 st1 a2 st2 st3 v H1 H2 H3.
    apply gpioCreate_static_inv in H1 as (_ & (s1 & Hs1 & _) & Hb1 & ->).
    apply gpioCreate_static_inv in H2 as (_ & (s2 & Hs2 & Hu2) & Hb2 & ->).
    proj_c in Hs2. proj_c in Hb2. proj_c.
    pose proof (insert_lookup_same _ a1 _
                  (mk_gpio (to_uint8 p) (to_uint8 b) false true) Hs1) as Ho1.
    assert (Hne : a1 <> a2).
    { intros ->. rewrite Ho1 in Hs2. injection Hs2 as <-. discriminate Hu2. }
    assert (Hlt : (a1 < a2)%nat).
    { destruct (decide (a2 < a1)%nat) as [Hgt|]; [|lia].
      destruct (Hb1 a2 Hgt) as (s & Hs & Hu).
      rewrite list_lookup_insert_ne in Hs2 by congruence. congruence. }
    assert (Ho1' : mem (mk_state
                     (<[a2 := mk_gpio (to_uint8 p) (to_uint8 b) false true]>
                        (<[a1 := mk_gpio (to_uint8 p) (to_uint8 b) false true]> (mem st)))
                     (hal st)) !! a1
                   = Some (mk_gpio (to_uint8 p) (to_uint8 b) false true)).
    { proj_c. rewrite list_lookup_insert_ne by congruence. exact Ho1. }
    rewrite (gpioSetOutput_eq _ _ _ _ Ho1') in H3. injection H3 as <-. proj_c.
    assert (H31 : <[a1 := with_output (mk_gpio (to_uint8 p) (to_uint8 b) false true) true]>
                    (<[a2 := mk_gpio (to_uint8 p) (to_uint8 b) false true]>
                       (<[a1 := mk_gpio (to_uint8 p) (to_uint8 b) false true]> (mem st)))
                    !! a1 = Some (mk_gpio (to_uint8 p) (to_uint8 b) true true)).
    { apply list_lookup_insert_eq. rewrite !length_insert.
      eapply lookup_lt_Some, Hs1. }
    assert (H32 : <[a1 := with_output (mk_gpio (to_uint8 p) (to_uint8 b) false true) true]>
                    (<[a2 := mk_gpio (to_uint8 p) (to_uint8 b) false true]>
                       (<[a1 := mk_gpio (to_uint8 p) (to_uint8 b) false true]> (mem st)))
                    !! a2 = Some (mk_gpio (to_uint8 p) (to_uint8 b) false true)).
    { rewrite list_lookup_insert_ne by congruence.
      apply list_lookup_insert_eq. eapply lookup_lt_Some, Hs2. }
    split; [exact Hlt|]. split; [reflexivity|]. split; [exact H31|].
    split; [exact H32|].
    erewrite gpioSetState_eq by exact H32. reflexivity.
  - intros j1 j2 p b st a1 st1 a2 st2 st3 v H1 H2 H3.
    rewrite gpioCreate_dynamic_some in H1. injection H1 as <- <-.
    rewrite gpioCreate_dynamic_some in H2. injection H2 as <- <-.
    proj_c. proj_c in H3. rewrite length_app. simpl.
    assert (Ho1 : mem (mk_state
                    ((mem st ++ [mk_gpio (to_uint8 p) (to_uint8 b) false tt]) ++
                     [mk_gpio (to_uint8 p) (to_uint8 b) false tt]) (hal st))
                    !! length (mem st)
                  = Some (mk_gpio (to_uint8 p) (to_uint8 b) false tt)).
    { proj_c. rewrite lookup_app_l by (rewrite length_app; simpl; lia).
      rewrite lookup_app_r, Nat.sub_diag by lia. reflexivity. }
    rewrite (gpioSetOutput_eq _ _ _ _ Ho1) in H3. injection H3 as <-. proj_c.
    assert (H31 : <[length (mem st) :=
                      with_output (mk_gpio (to_uint8 p) (to_uint8 b) false tt) true]>
                    ((mem st ++ [mk_gpio (to_uint8 p) (to_uint8 b) false tt]) ++
                     [mk_gpio (to_uint8 p) (to_uint8 b) false tt])
                    !! length (mem st)
                  = Some (mk_gpio (to_uint8 p) (to_uint8 b) true tt)).
    { apply list_lookup_insert_eq. rewrite !length_app. simpl. lia. }
    assert (H32 : <[length (mem st) :=
                      with_output (mk_gpio (to_uint8 p) (to_uint8 b) false tt) true]>
                    ((mem st ++ [mk_gpio (to_uint8 p) (to_uint8 b) false tt]) ++
                     [mk_gpio (to_uint8 p) (to_uint8 b) false tt])
                    !! (length (mem st) + 1)%nat
                  = Some (mk_gpio (to_uint8 p) (to_uint8 b) false tt)).
    { rewrite list_lookup_insert_ne by lia.
      rewrite lookup_app_r by (rewrite length_app; simpl; lia).
      rewrite length_app. simpl.
      replace (length (mem st) + 1 - (length (mem st) + 1))%nat with 0%nat by lia.
      reflexivity. }
    split; [lia|]. split; [reflexivity|]. split; [exact H31|].
    split; [exact H32|].
    erewrite gpioSetState_eq by exact H32. reflexivity.
Qed.

(** X4 (HAL calls are on live pins).  In every state a well-behaved
    client of the static build reaches, the HAL has received its earlier
    calls followed by calls that are each about the port and bit held by
    a slot in use: the facade never asks the HAL about a pin for which no
    handle was created. *)
Theorem hal_calls_on_live_pins N h0 st :
  reachable N h0 st ->
  exists new,
    hal_calls (hal st) = hal_calls h0 ++ new /\
    Forall (on_live_pin st) new.
Proof. apply reachable_live_pins. Qed.

(** X5 (the HAL record only grows).  Along any run, in both builds, the
    calls the HAL had received are still there, in order, followed by the
    new ones; there is at most one new call per accessor call and none
    for a creation; and the levels the HAL reports are not altered. *)
Theorem hal_log_append_only :
  (forall N prog st vs st',
      run_static N prog st = Some (vs, st') ->
      exists new,
        hal_calls (hal st') = hal_calls (hal st) ++ new /\
        (length new + count_creates prog <= length prog)%nat /\
        hal_level (hal st') = hal_level (hal st)) /\
  (forall prog st vs st',
      run_dynamic prog st = Some (vs, st') ->
      exists new,
        hal_calls (hal st') = hal_calls (hal st) ++ new /\
        (length new + count_creates prog <= length prog)%nat /\
        hal_level (hal st') = hal_level (hal st)).
Proof.
  split.
  - intros N prog st vs st' H.
    apply (run_hal_log (fun _ : unit => allocateInstance N)) in H; [exact H|].
    intros e s h s' Ha. exact (proj1 (allocateInstance_frame N e s h s' Ha)).
  - intros prog st vs st' H.
    apply (run_hal_log malloc) in H; [exact H|].
    intros e s h s' Ha. exact (proj1 (malloc_frame e s h s' Ha)).
Qed.

(** X6 (used slots form an initial segment).  In every state a
    well-behaved client of the static build reaches, the slots in use are
    exactly the first [k] of the [N] slots, for some [k]: there is never a
    free slot below a used one. *)
Theorem reachable_used_prefix N h0 st :
  reachable N h0 st ->
  exists k, (k <= N)%nat /\
    flags st = replicate k true ++ replicate (N - k) false.
Proof.
  intros H. destruct (reachable_first_used N h0 st H) as [k Hk].
  exists (k `min` N)%nat. split; [lia|].
  rewrite (first_used_replicate N k st Hk). f_equal. f_equal. lia.
Qed.

(** Two slots, three creations with a change of direction in between:
    both slots end in use, the third creation having returned NULL. *)
Lemma slots_never_released_witness :
  length (flags (mk_state [mk_gpio 1 0 true true; mk_gpio 1 1 false true]
                   (mk_hal [set_direction 1 0 true] (fun _ _ _ => false)))) =
    length (flags (static_init 2 (mock_hal false))) /\
  (forall j, flags (static_init 2 (mock_hal false)) !! j = Some true ->
     flags (mk_state [mk_gpio 1 0 true true; mk_gpio 1 1 false true]
              (mk_hal [set_direction 1 0 true] (fun _ _ _ => false))) !! j
       = Some true) /\
  used_count (mk_state [mk_gpio 1 0 true true; mk_gpio 1 1 false true]
                (mk_hal [set_direction 1 0 true] (fun _ _ _ => false))) =
    (used_count (static_init 2 (mock_hal false)) +
     length (addresses (handles [Handle (Some 0%nat); Void; Handle (Some 1%nat);
                                 Handle NULL])))%nat.
Proof.
  assert (Hr : run_static 2
                 [Create tt 1 0; SetOutput (Some 0%nat) true; Create tt 1 1;
                  Create tt 1 2]
                 (static_init 2 (mock_hal false)) =
               Some ([Handle (Some 0%nat); Void; Handle (Some 1%nat); Handle NULL],
                     mk_state [mk_gpio 1 0 true true; mk_gpio 1 1 false true]
                       (mk_hal [set_direction 1 0 true] (fun _ _ _ => false))))
    by (vm_compute; reflexivity).
  exact (slots_never_released _ _ _ _ _ Hr).
Defined.

(** A refused [malloc] between two granted ones. *)
Lemma dynamic_handles_fresh_witness :
  succeeded <$> handles [Handle (Some 0%nat); Handle NULL; Void; Handle (Some 1%nat)] =
    succeeded <$> answers [Create (Some stale_block) 1 0; Create None 1 1;
                           SetOutput (Some 0%nat) true;
                           Create (Some stale_block) 1 2] /\
  (forall a,
     a ∈ addresses (handles [Handle (Some 0%nat); Handle NULL; Void;
                             Handle (Some 1%nat)]) ->
     mem (dynamic_init (mock_hal false)) !! a = None) /\
  NoDup (addresses (handles [Handle (Some 0%nat); Handle NULL; Void;
                             Handle (Some 1%nat)])) /\
  length (mem (mk_state [mk_gpio 1 0 true tt; mk_gpio 1 2 false tt]
                 (mk_hal [set_direction 1 0 true] (fun _ _ _ => false)))) =
    (length (mem (dynamic_init (mock_hal false))) +
     length (addresses (handles [Handle (Some 0%nat); Handle NULL; Void;
                                 Handle (Some 1%nat)])))%nat.
Proof.
  assert (Hr : run_dynamic
                 [Create (Some stale_block) 1 0; Create None 1 1;
                  SetOutput (Some 0%nat) true; Create (Some stale_block) 1 2]
                 (dynamic_init (mock_hal false)) =
               Some ([Handle (Some 0%nat); Handle NULL; Void; Handle (Some 1%nat)],
                     mk_state [mk_gpio 1 0 true tt; mk_gpio 1 2 false tt]
                       (mk_hal [set_direction 1 0 true] (fun _ _ _ => false))))
    by (vm_compute; reflexivity).
  exact (dynamic_handles_fresh _ _ _ _ Hr).
Defined.

(** Pin (1, 0) created twice: the second handle stays an input. *)
Lemma aliased_handles_independent_witness :
  ((0 < 1)%nat /\
   hal_calls (hal (mk_state [mk_gpio 1 0 true true; mk_gpio 1 0 false true]
                     (mk_hal [set_direction 1 0 true] (fun _ _ _ => false)))) =
     hal_calls (hal (static_init 2 (mock_hal false))) ++
     [set_direction (to_uint8 1) (to_uint8 0) true] /\
   mem (mk_state [mk_gpio 1 0 true true; mk_gpio 1 0 false true]
          (mk_hal [set_direction 1 0 true] (fun _ _ _ => false))) !! 0%nat =
     Some (mk_gpio (to_uint8 1) (to_uint8 0) true true) /\
   mem (mk_state [mk_gpio 1 0 true true; mk_gpio 1 0 false true]
          (mk_hal [set_direction 1 0 true] (fun _ _ _ => false))) !! 1%nat =
     Some (mk_gpio (to_uint8 1) (to_uint8 0) false true) /\
   gpioSetState (Some 1%nat) true
     (mk_state [mk_gpio 1 0 true true; mk_gpio 1 0 false true]
        (mk_hal [set_direction 1 0 true] (fun _ _ _ => false))) =
     Some (tt, mk_state [mk_gpio 1 0 true true; mk_gpio 1 0 false true]
                 (mk_hal [set_direction 1 0 true] (fun _ _ _ => false)))) /\
  (0%nat <> 1%nat /\
   hal_calls (hal (mk_state [mk_gpio 1 0 true tt; mk_gpio 1 0 false tt]
                     (mk_hal [set_direction 1 0 true] (fun _ _ _ => false)))) =
     hal_calls (hal (dynamic_init (mock_hal false))) ++
     [set_direction (to_uint8 1) (to_uint8 0) true] /\
   mem (mk_state [mk_gpio 1 0 true tt; mk_gpio 1 0 false tt]
          (mk_hal [set_direction 1 0 true] (fun _ _ _ => false))) !! 0%nat =
     Some (mk_gpio (to_uint8 1) (to_uint8 0) true tt) /\
   mem (mk_state [mk_gpio 1 0 true tt; mk_gpio 1 0 false tt]
          (mk_hal [set_direction 1 0 true] (fun _ _ _ => false))) !! 1%nat =
     Some (mk_gpio (to_uint8 1) (to_uint8 0) false tt) /\
   gpioSetState (Some 1%nat) true
     (mk_state [mk_gpio 1 0 true tt; mk_gpio 1 0 false tt]
        (mk_hal [set_direction 1 0 true] (fun _ _ _ => false))) =
     Some (tt, mk_state [mk_gpio 1 0 true tt; mk_gpio 1 0 false tt]
                 (mk_hal [set_direction 1 0 true] (fun _ _ _ => false)))).
Proof.
  split.
  - assert (H1 : gpioCreate_static 2 1 0 (static_init 2 (mock_hal false)) =
                 Some (Some 0%nat,
                       mk_state [mk_gpio 1 0 false true; mk_gpio 0 0 false false]
                         (mock_hal false)))
      by (vm_compute; reflexivity).
    assert (H2 : gpioCreate_static 2 1 0
                   (mk_state [mk_gpio 1 0 false true; mk_gpio 0 0 false false]
                      (mock_hal false)) =
                 Some (Some 1%nat,
                       mk_state [mk_gpio 1 0 false true; mk_gpio 1 0 false true]
                         (mock_hal false)))
      by (vm_compute; reflexivity).
    assert (H3 : gpioSetOutput (Some 0%nat) true
                   (mk_state [mk_gpio 1 0 false true; mk_gpio 1 0 false true]
                      (mock_hal false)) =
                 Some (tt,
                       mk_state [mk_gpio 1 0 true true; mk_gpio 1 0 false true]
                         (mk_hal [set_direction 1 0 true] (fun _ _ _ => false))))
      by (vm_compute; reflexivity).
    exact (proj1 aliased_handles_independent _ _ _ _ _ _ _ _ _ true H1 H2 H3).
  - assert (H1 : gpioCreate_dynamic (Some stale_block) 1 0
                   (dynamic_init (mock_hal false)) =
                 Some (Some 0%nat, mk_state [mk_gpio 1 0 false tt] (mock_hal false)))
      by (vm_compute; reflexivity).
    assert (H2 : gpioCreate_dynamic (Some stale_block) 1 0
                   (mk_state [mk_gpio 1 0 false tt] (mock_hal false)) =
                 Some (Some 1%nat,
                       mk_state [mk_gpio 1 0 false tt; mk_gpio 1 0 false tt]
                         (mock_hal false)))
      by (vm_compute; reflexivity).
    assert (H3 : gpioSetOutput (Some 0%nat) true
                   (mk_state [mk_gpio 1 0 false tt; mk_gpio 1 0 false tt]
                      (mock_hal false)) =
                 Some (tt,
                       mk_state [mk_gpio 1 0 true tt; mk_gpio 1 0 false tt]
                         (mk_hal [set_direction 1 0 true] (fun _ _ _ => false))))
      by (vm_compute; reflexivity).
    exact (proj2 aliased_handles_independent _ _ _ _ _ _ _ _ _ _ true H1 H2 H3).
Defined.

(** Pin (4, 2) created, made an output, written and read. *)
Lemma hal_calls_on_live_pins_witness :
  exists new,
    hal_calls (hal (mk_state [mk_gpio 4 2 true true; mk_gpio 0 0 false false]
                      (mk_hal [set_direction 4 2 true; set_output 4 2 true]
                         (fun _ _ _ => false)))) =
      hal_calls (mock_hal false) ++ new /\
    Forall (on_live_pin
              (mk_state [mk_gpio 4 2 true true; mk_gpio 0 0 false false]
                 (mk_hal [set_direction 4 2 true; set_output 4 2 true]
                    (fun _ _ _ => false)))) new.
Proof.
  assert (H1 : exec (fun _ : unit => allocateInstance 2) (Create tt 4 2)
                 (static_init 2 (mock_hal false)) =
               Some (Handle (Some 0%nat),
                     mk_state [mk_gpio 4 2 false true; mk_gpio 0 0 false false]
                       (mock_hal false)))
    by (vm_compute; reflexivity).
  assert (H2 : exec (fun _ : unit => allocateInstance 2)
                 (SetOutput (Some 0%nat) true)
                 (mk_state [mk_gpio 4 2 false true; mk_gpio 0 0 false false]
                    (mock_hal false)) =
               Some (Void,
                     mk_state [mk_gpio 4 2 true true; mk_gpio 0 0 false false]
                       (mk_hal [set_direction 4 2 true] (fun _ _ _ => false))))
    by (vm_compute; reflexivity).
  assert (H3 : exec (fun _ : unit => allocateInstance 2)
                 (SetState (Some 0%nat) true)
                 (mk_state [mk_gpio 4 2 true true; mk_gpio 0 0 false false]
                    (mk_hal [set_direction 4 2 true] (fun _ _ _ => false))) =
               Some (Void,
                     mk_state [mk_gpio 4 2 true true; mk_gpio 0 0 false false]
                       (mk_hal [set_direction 4 2 true; set_output 4 2 true]
                          (fun _ _ _ => false))))
    by (vm_compute; reflexivity).
  exact (hal_calls_on_live_pins 2 (mock_hal false) _
           (reach_call 2 (mock_hal false) _ (SetState (Some 0%nat) true) _ _
              (reach_call 2 (mock_hal false) _ (SetOutput (Some 0%nat) true) _ _
                 (reach_call 2 (mock_hal false) _ (Create tt 4 2) _ _
                    (reach_init 2 (mock_hal false)) I H1)
                 (ex_intro _ 0%nat
                    (ex_intro _ (mk_gpio 4 2 false true)
                       (conj eq_refl (conj eq_refl eq_refl))))
                 H2)
              (ex_intro _ 0%nat
                 (ex_intro _ (mk_gpio 4 2 true true)
                    (conj eq_refl (conj eq_refl eq_refl))))
              H3)).
Defined.

(** Five calls, two of them creations and one an ignored write: two new
    HAL calls after the one already recorded. *)
Lemma hal_log_append_only_witness :
  (exists new,
     hal_calls (hal (mk_state [mk_gpio 1 0 true true; mk_gpio 1 1 false true]
                       (mk_hal [get_input 9 9; set_direction 1 0 true; get_input 1 1]
                          (fun _ _ _ => true)))) =
       hal_calls (hal (static_init 2 (mk_hal [get_input 9 9] (fun _ _ _ => true))))
       ++ new /\
     (length new +
      count_creates [Create tt 1 0; SetOutput (Some 0%nat) true; Create tt 1 1;
                     SetState (Some 1%nat) true; GetState (Some 1%nat)]
      <= length [Create tt 1 0; SetOutput (Some 0%nat) true; Create tt 1 1;
                 SetState (Some 1%nat) true; GetState (Some 1%nat)])%nat /\
     hal_level (hal (mk_state [mk_gpio 1 0 true true; mk_gpio 1 1 false true]
                       (mk_hal [get_input 9 9; set_direction 1 0 true; get_input 1 1]
                          (fun _ _ _ => true)))) =
       hal_level (hal (static_init 2 (mk_hal [get_input 9 9] (fun _ _ _ => true))))) /\
  (exists new,
     hal_calls (hal (mk_state [mk_gpio 1 0 true tt]
                       (mk_hal [set_direction 1 0 true] (fun _ _ _ => true)))) =
       hal_calls (hal (dynamic_init (mock_hal true))) ++ new /\
     (length new +
      count_creates [Create (Some stale_block) 1 0; SetOutput (Some 0%nat) true]
      <= length [Create (Some stale_block) 1 0; SetOutput (Some 0%nat) true])%nat /\
     hal_level (hal (mk_state [mk_gpio 1 0 true tt]
                       (mk_hal [set_direction 1 0 true] (fun _ _ _ => true)))) =
       hal_level (hal (dynamic_init (mock_hal true)))).
Proof.
  split.
  - assert (Hr : run_static 2
                   [Create tt 1 0; SetOutput (Some 0%nat) true; Create tt 1 1;
                    SetState (Some 1%nat) true; GetState (Some 1%nat)]
                   (static_init 2 (mk_hal [get_input 9 9] (fun _ _ _ => true))) =
                 Some ([Handle (Some 0%nat); Void; Handle (Some 1%nat); Void;
                        Level true],
                       mk_state [mk_gpio 1 0 true true; mk_gpio 1 1 false true]
                         (mk_hal [get_input 9 9; set_direction 1 0 true;
                                  get_input 1 1] (fun _ _ _ => true))))
      by (vm_compute; reflexivity).
    exact (proj1 hal_log_append_only _ _ _ _ _ Hr).
  - assert (Hr : run_dynamic
                   [Create (Some stale_block) 1 0; SetOutput (Some 0%nat) true]
                   (dynamic_init (mock_hal true)) =
                 Some ([Handle (Some 0%nat); Void],
                       mk_state [mk_gpio 1 0 true tt]
                         (mk_hal [set_direction 1 0 true] (fun _ _ _ => true))))
      by (vm_compute; reflexivity).
    exact (proj2 hal_log_append_only _ _ _ _ Hr).
Defined.

(** After one creation out of three slots. *)
Lemma reachable_used_prefix_witness :
  exists k, (k <= 3)%nat /\
    flags (mk_state [mk_gpio 4 2 false true; mk_gpio 0 0 false false;
                     mk_gpio 0 0 false false] (mock_hal false)) =
      replicate k true ++ replicate (3 - k) false.
Proof.
  assert (H1 : exec (fun _ : unit => allocateInstance 3) (Create tt 4 2)
                 (static_init 3 (mock_hal false)) =
               Some (Handle (Some 0%nat),
                     mk_state [mk_gpio 4 2 false true; mk_gpio 0 0 false false;
                               mk_gpio 0 0 false false] (mock_hal false)))
    by (vm_compute; reflexivity).
  exact (reachable_used_prefix 3 (mock_hal false) _
           (reach_call 3 (mock_hal false) _ (Create tt 4 2) _ _
              (reach_init 3 (mock_hal false)) I H1)).
Defined.
